(** * Caffeinate maintenance scripts

    A shallow embedding of the three Python scripts of the repository:

    - [app/src/debug/res/strip.py], the resource stripper;
    - [git_hooks/update_publish_tags.py], the tag sync that lists the tags
      through a repository object;
    - [update_publish_tags.py], the tag sync that lists the tags through a
      shell command.

    Python strings are sequences of code points, files hold the text that
    text-mode I/O presents, the loaded YAML document lives in a store of
    mutable containers, and every script is a computation in a small monad
    that threads the process state and stops on [exit] or on an uncaught
    exception. *)

From Stdlib Require Import Strings.String Strings.Ascii.
From stdpp Require Import base option list gmap.

Local Open Scope N_scope.

(** ** Python strings *)

Module Py.

(** A [str] is a sequence of Unicode code points. *)
Definition str := list N.

(** A literal of the source. *)
Definition lit (s : string) : str :=
  map N_of_ascii (list_ascii_of_string s).

(** [p.startswith] at the head of [s]. *)
Fixpoint starts_with (p s : str) : bool :=
  match p, s with
  | [], _ => true
  | _ :: _, [] => false
  | a :: p', b :: s' => (a =? b) && starts_with p' s'
  end.

(** [p in s]: [p] occurs in [s] as a contiguous run. *)
Fixpoint contains (p s : str) : bool :=
  starts_with p s ||
  match s with
  | [] => false
  | _ :: s' => contains p s'
  end.

(** [str.isspace] on one code point: the characters whose bidirectional
    class is WS, B or S, or whose category is Zs. *)
Definition is_space (c : N) : bool :=
  ((9 <=? c) && (c <=? 13)) || ((28 <=? c) && (c <=? 32)) ||
  (c =? 133) || (c =? 160) || (c =? 5760) ||
  ((8192 <=? c) && (c <=? 8202)) || (c =? 8232) || (c =? 8233) ||
  (c =? 8239) || (c =? 8287) || (c =? 12288).

Fixpoint lstrip (s : str) : str :=
  match s with
  | [] => []
  | c :: s' => if is_space c then lstrip s' else s
  end.

Definition rstrip (s : str) : str := rev (lstrip (rev s)).

(** [s.strip()] *)
Definition strip (s : str) : str := rstrip (lstrip s).

(** [s.split(sep)] for a one-character separator: one field more than
    there are separators, so never an empty list. *)
Fixpoint split (sep : N) (s : str) : list str :=
  match s with
  | [] => [[]]
  | c :: s' =>
      if c =? sep then [] :: split sep s'
      else match split sep s' with
           | [] => [[c]]
           | f :: fs => (c :: f) :: fs
           end
  end.

(** [''.join(parts)] *)
Definition join (parts : list str) : str := concat parts.

(** [file.readlines()] on text: the lines with their terminating newline,
    a last line without one when the text does not end in a newline. *)
Fixpoint readlines_from (cur : str) (s : str) : list str :=
  match s with
  | [] => match cur with [] => [] | _ :: _ => [rev cur] end
  | c :: s' =>
      if c =? 10 then rev (c :: cur) :: readlines_from [] s'
      else readlines_from (c :: cur) s'
  end.

Definition readlines (text : str) : list str := readlines_from [] text.

(** [os.path.join(a, b)] of [posixpath]. *)
Definition path_join (a b : str) : str :=
  if starts_with [47] b then b
  else match last a with
       | None => b
       | Some c => if c =? 47 then a ++ b else a ++ 47 :: b
       end.

(** [os.path.basename(p)] of [posixpath]: what follows the last slash. *)
Fixpoint basename (p : str) : str :=
  match p with
  | [] => []
  | c :: p' => if contains [47] p' then basename p'
               else if c =? 47 then p' else p
  end.

End Py.

Import Py.

(** ** The resource stripper: the line filter of [strip.py] *)

Module Strip.

Definition app_name : str := lit "app_name".
Definition close_tag : str := lit "</resources>".

(** One iteration of [for line in lines], on the pair
    [(startDelete, finalLines)]. *)
Definition step (st : bool * list str) (line : str) : bool * list str :=
  let '(startDelete, finalLines) := st in
  if contains app_name line then
    (true, finalLines ++ [line])
  else if negb startDelete || contains close_tag line then
    (startDelete, finalLines ++ [line])
  else
    (startDelete, finalLines).

(** The loop from [finalLines = []], [startDelete = False]. *)
Definition filter_lines (lines : list str) : list str :=
  snd (foldl step (false, []) lines).

(** The test of the loop body once [startDelete] is set: the line has the
    marker or the closing tag. *)
Definition kept_while_deleting (line : str) : bool :=
  contains app_name line || contains close_tag line.

(** "Every line strictly between the marker line [m] and the closing-tag
    line [c] is removed, and both are retained": in the output [c] comes
    right after [m]. *)
Definition span_removed (pre : list str) (m : str) (mid : list str)
    (c : str) (post : list str) : Prop :=
  exists tail,
    filter_lines (pre ++ m :: mid ++ c :: post) = filter_lines pre ++ m :: c :: tail.

(** "Every line after the closing-tag line [c] is kept unchanged": the
    output ends with [c] and all of [post]. *)
Definition after_closing_kept (pre : list str) (m : str) (mid : list str)
    (c : str) (post : list str) : Prop :=
  exists head,
    filter_lines (pre ++ m :: mid ++ c :: post) = head ++ c :: post.

End Strip.

(** ** The loaded YAML document *)

Module Yaml.

(** What the round-trip loader keeps on a node besides its value (comments,
    quoting, flow style, anchor), as opaque text; a plain Python object
    has none. *)
Definition ann := option str.

Definition loc := positive.

(** Immutable scalars are held by value, containers by reference. A scalar
    that is not a [str] ([None], a number, a boolean, a date) never equals
    a [str]; only its text is kept. *)
Inductive value :=
| VStr (a : ann) (s : str)
| VOther (repr : str)
| VRef (l : loc).

Inductive key :=
| KStr (s : str)
| KOther (repr : str).

(** [list] and [CommentedSeq]; [dict] and [CommentedMap], in key order.
    The entries of a mapping are the keys it answers for itself; YAML merge
    keys are not represented. *)
Inductive container :=
| CList (a : ann) (items : list value)
| CDict (a : ann) (entries : list (key * value)).

Abbreviation store := (gmap loc container).

Inductive exn :=
| KeyError (k : str)
| TypeError
| FileNotFoundError (path : str)
| YAMLError
| GitError.

Definition key_is (k : str) (x : key) : bool :=
  match x with
  | KStr s => bool_decide (s = k)
  | KOther _ => false
  end.

(** [d[k]] on the entries of a mapping. *)
Fixpoint find_key (k : str) (entries : list (key * value)) : option value :=
  match entries with
  | [] => None
  | (x, v) :: rest => if key_is k x then Some v else find_key k rest
  end.

(** [d[k] = v] on the entries of a mapping: an existing key keeps its
    place, a new key goes last. *)
Fixpoint set_key (k : str) (v : value) (entries : list (key * value))
  : list (key * value) :=
  match entries with
  | [] => [(KStr k, v)]
  | (x, w) :: rest =>
      if key_is k x then (x, v) :: rest else (x, w) :: set_key k v rest
  end.

(** [o[k]] for a string [k]: only a mapping can be subscripted by a
    string. A reference outside the store does not occur in a loaded
    document; it is answered like a non-mapping. *)
Definition getitem (h : store) (o : value) (k : str) : exn + value :=
  match o with
  | VRef l =>
      match h !! l with
      | Some (CDict _ entries) =>
          match find_key k entries with
          | Some v => inr v
          | None => inl (KeyError k)
          end
      | _ => inl TypeError
      end
  | _ => inl TypeError
  end.

(** [o[k] = v]: the mapping object [o] is updated in place. *)
Definition setitem (h : store) (o : value) (k : str) (v : value) : exn + store :=
  match o with
  | VRef l =>
      match h !! l with
      | Some (CDict a entries) => inr (<[l := CDict a (set_key k v entries)]> h)
      | _ => inl TypeError
      end
  | _ => inl TypeError
  end.

(** [o[k1][k2]...]. *)
Fixpoint subscript (h : store) (o : value) (ks : list str) : exn + value :=
  match ks with
  | [] => inr o
  | k :: ks' =>
      match getitem h o k with
      | inl e => inl e
      | inr o' => subscript h o' ks'
      end
  end.

(** [x == t] for a [str] [t]. *)
Definition eq_str (x : value) (t : str) : bool :=
  match x with
  | VStr _ s => bool_decide (s = t)
  | _ => false
  end.

Fixpoint eq_items (items : list value) (tags : list str) : bool :=
  match items, tags with
  | [], [] => true
  | x :: items', t :: tags' => eq_str x t && eq_items items' tags'
  | _, _ => false
  end.

(** [o == tags] for a list of [str]: only a sequence with equal items. *)
Definition eq_list (h : store) (o : value) (tags : list str) : bool :=
  match o with
  | VRef l =>
      match h !! l with
      | Some (CList _ items) => eq_items items tags
      | _ => false
      end
  | _ => false
  end.

(** The Python list of plain strings. *)
Definition plain_list (tags : list str) : container :=
  CList None (VStr None <$> tags).

(** A new object, at an address the store does not use. *)
Definition alloc (h : store) (c : container) : loc * store :=
  let l := fresh (dom h) in (l, <[l := c]> h).

End Yaml.

Import Yaml.

(** ** The process: state, effects, exit *)

Module Proc.

(** An argument of [print]: a string, or an object rendered from the store
    as it is at the call. *)
Inductive parg :=
| PStr (s : str)
| PObj (v : value) (h : store).

(** What the process does to the outside, in order. *)
Inductive event :=
| Print (args : list parg)
| OpenRead (path : str)
| OpenWrite (path : str)
| RunGit.

Record state := State {
  fs : gmap str str;        (* the text files *)
  heap : store;             (* the objects of the loaded document *)
  trace : list event
}.

(** What the scripts take from their surroundings. *)
Record env := Env {
  abspath : str -> str;
    (* os.path.abspath, which depends on the working directory *)
  repo_tag_output : str -> option str;
    (* git.Repo(p).git.tag('-l', '--sort=-v:refname'); None when the path
       holds no repository or the command fails *)
  popen_tag_output : str;
    (* os.popen('git tag -l --sort=-v:refname').read() *)
  yaml_load : str -> option (value * store);
    (* YAML(typ='rt').load; None on a parse error *)
  yaml_dump : value -> store -> str
    (* YAML(typ='rt').dump *)
}.

Inductive stop :=
| Exit (code : Z)
| Uncaught (e : exn).

(** A computation returns a value or stops the process. *)
Definition M (A : Type) : Type := state -> (A + stop) * state.

Definition ret {A} (a : A) : M A := fun st => (inl a, st).

Definition bind {A B} (m : M A) (k : A -> M B) : M B :=
  fun st =>
    match m st with
    | (inl a, st') => k a st'
    | (inr r, st') => (inr r, st')
    end.

Definition exit {A} (code : Z) : M A := fun st => (inr (Exit code), st).

Definition raise {A} (e : exn) : M A := fun st => (inr (Uncaught e), st).

Definition lift {A} (r : exn + A) : M A :=
  match r with
  | inl e => raise e
  | inr a => ret a
  end.

Definition emit (e : event) : M unit :=
  fun st => (inl tt, State (fs st) (heap st) (trace st ++ [e])).

Definition print (args : list parg) : M unit := emit (Print args).

Definition get_heap : M store := fun st => (inl (heap st), st).

Definition put_heap (h : store) : M unit :=
  fun st => (inl tt, State (fs st) h (trace st)).

Declare Scope proc_scope.
Delimit Scope proc_scope with proc.
Bind Scope proc_scope with M.

Notation "x <- m ;; k" := (bind m (fun x => k))
  (at level 100, m at next level, right associativity) : proc_scope.
Notation "m ;; k" := (bind m (fun _ => k))
  (at level 100, right associativity) : proc_scope.

Local Open Scope proc_scope.

(** [with open(path) as f: f.read()]. The file system holds, for each
    file, the text that reading it in text mode presents: decoded, with
    its line ends already translated to newlines. *)
Definition read_file (path : str) : M str :=
  emit (OpenRead path) ;;
  fun st =>
    match fs st !! path with
    | Some text => (inl text, st)
    | None => (inr (Uncaught (FileNotFoundError path)), st)
    end.

(** [with open(path, 'w') as f: f.write(text)] *)
Definition write_file (path text : str) : M unit :=
  emit (OpenWrite path) ;;
  fun st => (inl tt, State (<[path := text]> (fs st)) (heap st) (trace st)).

(** [print(..., o)] shows the object as it is now. *)
Definition shown (o : value) : M parg :=
  h <- get_heap ;; ret (PObj o h).

(** The exit status: [exit(n)] gives [n], the end of the script 0, an
    uncaught exception 1. *)
Definition status {A} (r : A + stop) : Z :=
  match r with
  | inl _ => 0
  | inr (Exit code) => code
  | inr (Uncaught _) => 1
  end.

Definition run (m : M unit) (st : state) : Z * state :=
  let '(r, st') := m st in (status r, st').

(** The files the process opened for writing, in order. *)
Definition is_write (e : event) : bool :=
  match e with
  | OpenWrite _ => true
  | _ => false
  end.

Definition writes (tr : list event) : list event := List.filter is_write tr.

(** The process starts with no object and no event. *)
Definition start (files : gmap str str) : state := State files ∅ [].

End Proc.

Import Proc.
Local Open Scope proc_scope.

(** ** [app/src/debug/res/strip.py] *)

Module StripScript.

Definition main (E : env) (argv : list str) : M unit :=
  if negb (length argv =? 2)%nat then
    print [PStr (lit "values folder not provided")] ;;
    exit 93
  else
    let stringsFileXML :=
      path_join (abspath E (argv !!! 1%nat)) (lit "strings.xml") in
    print [PStr stringsFileXML] ;;
    text <- read_file stringsFileXML ;;
    let lines := readlines text in
    let finalLines := Strip.filter_lines lines in
    print [PStr (join finalLines)] ;;
    write_file stringsFileXML (join finalLines).

End StripScript.

(** ** What the two tag-sync scripts have in common *)

Module Sync.

Definition usage : str :=
  lit "must supply git top level with `git rev-parse --show-toplevel`".

(** [f'{top}/.github/workflows/publish_release.yml'] *)
Definition yaml_path (top : str) : str :=
  top ++ lit "/.github/workflows/publish_release.yml".

(** [output.strip().split('\n')] *)
Definition tags_of (output : str) : list str := split 10 (strip output).

Definition release_tag_path : list str :=
  [lit "on"; lit "workflow_dispatch"; lit "inputs"; lit "releaseTag"].

Definition options : str := lit "options".

(** [with open(path, 'r') as yamlFile: yaml.load(yamlFile)] *)
Definition load (E : env) (path : str) : M value :=
  text <- read_file path ;;
  match yaml_load E text with
  | Some (root, h) => put_heap h ;; ret root
  | None => raise YAMLError
  end.

(** [with open(path, 'w') as yamlFile: yaml.dump(dataLoaded, yamlFile)] *)
Definition dump (E : env) (path : str) (dataLoaded : value) : M unit :=
  h <- get_heap ;;
  write_file path (yaml_dump E dataLoaded h).

(** [dataLoaded['on']['workflow_dispatch']['inputs']['releaseTag']['options']] *)
Definition options_of (dataLoaded : value) : M value :=
  h <- get_heap ;;
  lift (subscript h dataLoaded (release_tag_path ++ [options])).

(** [... != tags] *)
Definition differs (opts : value) (tags : list str) : M bool :=
  h <- get_heap ;;
  ret (negb (eq_list h opts tags)).

(** [dataLoaded['on']['workflow_dispatch']['inputs']['releaseTag']['options'] = tags]:
    the list [tags] becomes an object of the store and the [releaseTag]
    mapping is updated in place. *)
Definition set_options (dataLoaded : value) (tags : list str) : M unit :=
  h <- get_heap ;;
  target <- lift (subscript h dataLoaded release_tag_path) ;;
  let '(l, h1) := alloc h (plain_list tags) in
  h2 <- lift (setitem h1 target options (VRef l)) ;;
  put_heap h2.

(** The store that [set_options] leaves when the [releaseTag] mapping is
    the object [rt] with [entries] and the list [tags] is the new object
    [l]. *)
Definition updated (h : store) (rt : loc) (a : ann) (entries : list (key * value))
    (l : loc) (tags : list str) : store :=
  <[rt := CDict a (set_key options (VRef l) entries)]> (<[l := plain_list tags]> h).

End Sync.

Import Sync.

(** ** [git_hooks/update_publish_tags.py] *)

Module SyncRepo.

(** [git.Repo(top)] and [gitRepo.git.tag('-l', '--sort=-v:refname')] *)
Definition git_tag (E : env) (top : str) : M str :=
  emit RunGit ;;
  match repo_tag_output E top with
  | Some output => ret output
  | None => raise GitError
  end.

Definition main (E : env) (argv : list str) : M unit :=
  if negb (length argv =? 2)%nat then
    print [PStr usage] ;;
    exit 93
  else
    let gitRepoTopLevelAbsPath := abspath E (argv !!! 1%nat) in
    let publishReleaseYamlPath := yaml_path gitRepoTopLevelAbsPath in
    output <- git_tag E gitRepoTopLevelAbsPath ;;
    let tags := tags_of output in
    dataLoaded <- load E publishReleaseYamlPath ;;
    let publishReleaseYamlFileName := basename publishReleaseYamlPath in
    let quoted := [34] ++ publishReleaseYamlFileName ++ [34] in
    opts <- options_of dataLoaded ;;
    changed <- differs opts tags ;;
    if changed then
      opts <- options_of dataLoaded ;;
      o <- shown opts ;;
      print [PStr (lit "tags in " ++ quoted ++ lit ":"); o] ;;
      set_options dataLoaded tags ;;
      dump E publishReleaseYamlPath dataLoaded ;;
      opts <- options_of dataLoaded ;;
      o <- shown opts ;;
      print [PStr (lit "updated tags in " ++ quoted ++ lit " to:"); o] ;;
      print [PStr (lit "tags updated!")] ;;
      exit 0
    else
      print [PStr (lit "tags in " ++ quoted ++ lit " are up to date!")] ;;
      exit 93.

End SyncRepo.

(** ** [update_publish_tags.py] *)

Module SyncShell.

(** [os.popen('git tag -l --sort=-v:refname').read()]: the command runs in
    the working directory and a failing command gives its output all the
    same. *)
Definition popen_git_tag (E : env) : M str :=
  emit RunGit ;;
  ret (popen_tag_output E).

Definition main (E : env) (argv : list str) : M unit :=
  if negb (length argv =? 2)%nat then
    print [PStr usage] ;;
    exit 93
  else
    let pathName := abspath E (argv !!! 1%nat) in
    let publishReleaseYamlPath := yaml_path pathName in
    print [PStr publishReleaseYamlPath] ;;
    output <- popen_git_tag E ;;
    let tags := tags_of output in
    dataLoaded <- load E publishReleaseYamlPath ;;
    let publishReleaseYamlFileName := basename publishReleaseYamlPath in
    opts <- options_of dataLoaded ;;
    o <- shown opts ;;
    print [PStr (lit "tags in " ++ publishReleaseYamlFileName ++ lit ":"); o] ;;
    opts <- options_of dataLoaded ;;
    changed <- differs opts tags ;;
    if changed then
      set_options dataLoaded tags ;;
      opts <- options_of dataLoaded ;;
      o <- shown opts ;;
      print [PStr (lit "updated tags in " ++ publishReleaseYamlFileName ++ lit " to:"); o] ;;
      dump E publishReleaseYamlPath dataLoaded ;;
      print [PStr (lit "tags updated!")]
    else
      print [PStr (lit "tags are up to date!")].

End SyncShell.

(** The two variants under one name. *)
Inductive variant := RepoObject | ShellInvocation.

Definition sync_main (v : variant) : env -> list str -> M unit :=
  match v with
  | RepoObject => SyncRepo.main
  | ShellInvocation => SyncShell.main
  end.

(** What the tag listing of a variant returns for the top level [top];
    [None] when it raises. *)
Definition tag_listing (v : variant) (E : env) (top : str) : option str :=
  match v with
  | RepoObject => repo_tag_output E top
  | ShellInvocation => Some (popen_tag_output E)
  end.

(** The three scripts under one name. *)
Inductive script := Stripper | TagSync (v : variant).

Definition script_main (s : script) : env -> list str -> M unit :=
  match s with
  | Stripper => StripScript.main
  | TagSync v => sync_main v
  end.

(** ** A repository to run the scripts on *)

Module Sample.

Definition top : str := lit "/repo".

Definition yaml_text : str := lit "name: Publish Release".

Definition files : gmap str str := {[ yaml_path top := yaml_text ]}.

(** The workflow document with the options [v1.1, v1.0]. *)
Definition document : store :=
  list_to_map
    [(1%positive, CDict None [(KStr (lit "name"), VStr None (lit "Publish Release"));
                              (KStr (lit "on"), VRef 2%positive)]);
     (2%positive, CDict None [(KStr (lit "workflow_dispatch"), VRef 3%positive)]);
     (3%positive, CDict None [(KStr (lit "inputs"), VRef 4%positive)]);
     (4%positive, CDict None [(KStr (lit "releaseTag"), VRef 5%positive)]);
     (5%positive, CDict (Some (lit "# the tags to choose from"))
                    [(KStr (lit "type"), VStr None (lit "choice"));
                     (KStr (lit "options"), VRef 6%positive);
                     (KStr (lit "required"), VOther (lit "true"))]);
     (6%positive, CList None [VStr (Some (lit "'")) (lit "v1.1"); VStr None (lit "v1.0")])].

Definition root : value := VRef 1%positive.

Definition loaded_options : value := VRef 6%positive.

(** The surroundings in which both tag listings print [output]. *)
Definition surroundings (output : str) : env :=
  {| abspath := fun p => p;
     repo_tag_output := fun p => if bool_decide (p = top) then Some output else None;
     popen_tag_output := output;
     yaml_load := fun text =>
       if bool_decide (text = yaml_text) then Some (root, document) else None;
     yaml_dump := fun _ _ => lit "name: Publish Release (rewritten)" |}.

Definition three_tags : str :=
  lit "v2.0" ++ [10] ++ lit "v1.1" ++ [10] ++ lit "v1.0" ++ [10].

Definition two_tags : str := lit "v1.1" ++ [10] ++ lit "v1.0" ++ [10].

Definition script_name : str := lit "update_publish_tags.py".

Definition argv : list str := [script_name; top].

End Sample.

(** ** Text as lines and fields *)

Module Text.

(** A line that ends in its newline and holds no other. *)
Definition terminated (line : str) : Prop :=
  exists body, line = body ++ [10] /\ 10 ∉ body.

(** A last line without a newline: not empty, no newline in it. *)
Definition unterminated (line : str) : Prop :=
  line <> [] /\ 10 ∉ line.

(** The lines of a text: every line is terminated, but the last one may
    be unterminated. *)
Inductive lines_ok : list str -> Prop :=
| lines_ok_nil : lines_ok []
| lines_ok_last line : unterminated line -> lines_ok [line]
| lines_ok_cons line lines : terminated line -> lines_ok lines -> lines_ok (line :: lines).

(** [sep.join(fields)] for a one-character separator. *)
Fixpoint join_with (sep : N) (fields : list str) : str :=
  match fields with
  | [] => []
  | [f] => f
  | f :: fs => f ++ sep :: join_with sep fs
  end.

(** What reading in text mode makes of the decoded content of a file: a
    carriage return, together with the newline after it when there is
    one, becomes a newline. *)
Fixpoint universal_newlines (raw : str) : str :=
  match raw with
  | [] => []
  | c :: rest =>
      if c =? 13 then
        10 :: match rest with
              | [] => []
              | d :: rest' =>
                  if d =? 10 then universal_newlines rest' else universal_newlines rest
              end
      else c :: universal_newlines rest
  end.

End Text.

Import Text.

(** ** A repository whose workflow file is read back after it was written *)

Module Reread.




End Reread.

(** ** A workflow document whose [releaseTag] has no [options] *)

Module Incomplete.

Definition partial_document : store :=
  <[5%positive := CDict None [(KStr (lit "type"), VStr None (lit "string"))]]>
    Sample.document.

Definition without_options : env :=
  {| abspath := fun p => p;
     repo_tag_output := fun _ => Some Sample.three_tags;
     popen_tag_output := Sample.three_tags;
     yaml_load := fun _ => Some (Sample.root, partial_document);
     yaml_dump := fun _ _ => [] |}.

End Incomplete.

(** ** The text of the workflow file *)

Module Layout.

(** A line of a block sequence: after its indentation, a dash and a
    space. *)
Definition is_item (line : str) : bool := starts_with (lit "- ") (lstrip line).

Fixpoint drop_common_prefix (a b : list str) : list str * list str :=
  match a, b with
  | x :: a', y :: b' =>
      if bool_decide (x = y) then drop_common_prefix a' b' else (a, b)
  | _, _ => (a, b)
  end.

Definition drop_common_suffix (a b : list str) : list str * list str :=
  let '(a', b') := drop_common_prefix (rev a) (rev b) in (rev a', rev b').

(** "The options are the new list and all other YAML content and
    formatting is preserved", of two texts: apart from one run of
    sequence items, the options, the new text has the lines of the
    old. *)
Definition only_options_differ (old new : str) : bool :=
  let '(a, b) := drop_common_prefix (readlines old) (readlines new) in
  let '(a', b') := drop_common_suffix a b in
  forallb is_item a' && forallb is_item b'.

(** The same of a run: the workflow file it leaves differs from the one
    it found in the options only. *)
Definition file_preserved (v : variant) (E : env) (script arg : str)
    (files : gmap str str) : Prop :=
  forall old,
    files !! yaml_path (abspath E arg) = Some old ->
    exists new,
      fs (snd (run (sync_main v E [script; arg]) (start files)))
        !! yaml_path (abspath E arg) = Some new /\
      only_options_differ old new = true.

Definition text_of (lines : list string) : str :=
  concat (map (fun line => lit line ++ [10]) lines).

(** A workflow file written with the dashes of its sequences indented. *)
Definition original : str :=
  text_of ["name: Publish Release";
           "on:";
           "  workflow_dispatch:";
           "    inputs:";
           "      releaseTag:";
           "        type: choice";
           "        options:";
           "          - v1.1";
           "          - v1.0";
           "jobs:";
           "  publish:";
           "    steps:";
           "      - run: make release"]%string.

(** The same file with the three tags and nothing else changed. *)
Definition edited_by_hand : str :=
  text_of ["name: Publish Release";
           "on:";
           "  workflow_dispatch:";
           "    inputs:";
           "      releaseTag:";
           "        type: choice";
           "        options:";
           "          - v2.0";
           "          - v1.1";
           "          - v1.0";
           "jobs:";
           "  publish:";
           "    steps:";
           "      - run: make release"]%string.

(** What the round-trip dumper writes for the document with the three
    tags: both scripts leave its indentation at the default (the call of
    [yaml.indent] is commented out), which puts the dash of a sequence
    item in the column of the key above it, whatever the text that was
    read had. *)
Definition dumped : str :=
  text_of ["name: Publish Release";
           "on:";
           "  workflow_dispatch:";
           "    inputs:";
           "      releaseTag:";
           "        type: choice";
           "        options:";
           "        - v2.0";
           "        - v1.1";
           "        - v1.0";
           "jobs:";
           "  publish:";
           "    steps:";
           "    - run: make release"]%string.

Definition workflow_root : value := VRef 1%positive.

Definition workflow : store :=
  list_to_map
    [(1%positive, CDict None [(KStr (lit "name"), VStr None (lit "Publish Release"));
                              (KStr (lit "on"), VRef 2%positive);
                              (KStr (lit "jobs"), VRef 7%positive)]);
     (2%positive, CDict None [(KStr (lit "workflow_dispatch"), VRef 3%positive)]);
     (3%positive, CDict None [(KStr (lit "inputs"), VRef 4%positive)]);
     (4%positive, CDict None [(KStr (lit "releaseTag"), VRef 5%positive)]);
     (5%positive, CDict None [(KStr (lit "type"), VStr None (lit "choice"));
                              (KStr (lit "options"), VRef 6%positive)]);
     (6%positive, CList None [VStr None (lit "v1.1"); VStr None (lit "v1.0")]);
     (7%positive, CDict None [(KStr (lit "publish"), VRef 8%positive)]);
     (8%positive, CDict None [(KStr (lit "steps"), VRef 9%positive)]);
     (9%positive, CList None [VRef 10%positive]);
     (10%positive, CDict None [(KStr (lit "run"), VStr None (lit "make release"))])].

Definition workflow_files : gmap str str := {[ yaml_path Sample.top := original ]}.

Definition default_layout : env :=
  {| abspath := fun p => p;
     repo_tag_output := fun p =>
       if bool_decide (p = Sample.top) then Some Sample.three_tags else None;
     popen_tag_output := Sample.three_tags;
     yaml_load := fun text =>
       if bool_decide (text = original) then Some (workflow_root, workflow) else None;
     yaml_dump := fun _ _ => dumped |}.

End Layout.

(** * Properties *)

(** ** The line filter *)

Section StripFilter.

Import Strip.

Lemma foldl_step_deleting acc lines :
  foldl step (true, acc) lines = (true, acc ++ List.filter kept_while_deleting lines).
Proof.
  revert acc. induction lines as [|line lines IH]; intros acc; simpl.
  - by rewrite app_nil_r.
  - unfold kept_while_deleting.
    destruct (contains app_name line); simpl.
    + rewrite IH. by rewrite <- app_assoc.
    + destruct (contains close_tag line); simpl.
      * rewrite IH. by rewrite <- app_assoc.
      * apply IH.
Qed.

Lemma foldl_step_acc acc lines :
  snd (foldl step (false, acc) lines) = acc ++ snd (foldl step (false, []) lines).
Proof.
  revert acc. induction lines as [|line lines IH]; intros acc; simpl.
  - by rewrite app_nil_r.
  - destruct (contains app_name line); simpl.
    + rewrite !foldl_step_deleting. simpl. by rewrite <- app_assoc.
    + rewrite (IH (acc ++ [line])), (IH [line]). by rewrite <- app_assoc.
Qed.

(** The filter, read off one line at a time: the first line is kept, and
    it decides how the rest is treated. *)
Lemma filter_lines_cons line lines :
  filter_lines (line :: lines) =
  line :: (if contains app_name line
           then List.filter kept_while_deleting lines
           else filter_lines lines).
Proof.
  unfold filter_lines. simpl.
  destruct (contains app_name line); simpl.
  - by rewrite foldl_step_deleting.
  - by rewrite foldl_step_acc.
Qed.

Lemma kept_marker line :
  contains app_name line = true -> kept_while_deleting line = true.
Proof. unfold kept_while_deleting. by intros ->. Qed.

Lemma kept_closing line :
  contains close_tag line = true -> kept_while_deleting line = true.
Proof. unfold kept_while_deleting. intros ->. by rewrite orb_true_r. Qed.

Lemma filter_kept_twice lines :
  List.filter kept_while_deleting (List.filter kept_while_deleting lines)
  = List.filter kept_while_deleting lines.
Proof.
  induction lines as [|line lines IH]; simpl; [done|].
  destruct (kept_while_deleting line) eqn:K; simpl; [|done].
  by rewrite K, IH.
Qed.

(** A line the loop keeps in either mode, met after [before]. *)
Lemma filter_lines_kept_line before line rest :
  kept_while_deleting line = true ->
  filter_lines (before ++ line :: rest) =
  filter_lines before ++
  line :: (if existsb (contains app_name) (before ++ [line])
           then List.filter kept_while_deleting rest
           else filter_lines rest).
Proof.
  intros K. induction before as [|b before IH]; simpl.
  - rewrite filter_lines_cons. change (filter_lines []) with (@nil str). simpl.
    by rewrite orb_false_r.
  - rewrite !filter_lines_cons.
    destruct (contains app_name b); simpl.
    + by rewrite List.filter_app; simpl; rewrite K.
    + by rewrite IH.
Qed.

Lemma filter_marker_of_kept lines :
  List.filter (contains app_name) (List.filter kept_while_deleting lines)
  = List.filter (contains app_name) lines.
Proof.
  induction lines as [|line lines IH]; simpl; [done|].
  unfold kept_while_deleting at 1.
  destruct (contains app_name line) eqn:A; simpl.
  - by rewrite A, IH.
  - destruct (contains close_tag line); simpl; [by rewrite A|done].
Qed.

Lemma filter_marker_of_output lines :
  List.filter (contains app_name) (filter_lines lines)
  = List.filter (contains app_name) lines.
Proof.
  induction lines as [|line lines IH]; [done|].
  rewrite filter_lines_cons. simpl.
  destruct (contains app_name line) eqn:A.
  - by rewrite filter_marker_of_kept.
  - by rewrite IH.
Qed.

Lemma existsb_marker_snoc before line :
  contains app_name line = true ->
  existsb (contains app_name) (before ++ [line]) = true.
Proof.
  intros A. rewrite existsb_app. simpl. rewrite A. by rewrite orb_true_r.
Qed.

(** *** C5 *)

(** C5: the lines that precede the first line containing [app_name] (a
    prefix [pre] with no such line) are the head of the output, unchanged
    and in order. *)
Theorem lines_before_marker_unchanged (pre rest : list str) :
  Forall (fun line => contains app_name line = false) pre ->
  filter_lines (pre ++ rest) = pre ++ filter_lines rest.
Proof.
  induction 1 as [|line pre A _ IH]; simpl; [done|].
  by rewrite filter_lines_cons, A, IH.
Qed.

Lemma lines_before_marker_unchanged_witness :
  filter_lines ([lit "<resources>"; lit "<string name='a'>A</string>"]
                ++ [lit "<string name='app_name'>X</string>"; lit "<string name='foo'>Y</string>";
                    lit "</resources>"])
  = [lit "<resources>"; lit "<string name='a'>A</string>"]
    ++ filter_lines [lit "<string name='app_name'>X</string>"; lit "<string name='foo'>Y</string>";
                     lit "</resources>"].
Proof.
  apply lines_before_marker_unchanged.
  repeat constructor.
Defined.

(** *** C2 *)

(** C2, as stated, fails: a line strictly between the marker line and the
    closing-tag line that itself contains [app_name] stays in the output. *)
Lemma span_removed_counterexample :
  contains app_name (lit "<string name='app_name'>X</string>") = true /\
  contains close_tag (lit "</resources>") = true /\
  ~ span_removed [] (lit "<string name='app_name'>X</string>")
      [lit "<string name='app_name_short'>Y</string>"]
      (lit "</resources>") [].
Proof.
  split; [reflexivity|]. split; [reflexivity|].
  intros [tail H]. vm_compute in H. discriminate H.
Qed.

(** C2, amended: between a marker line and a later closing-tag line the
    output keeps exactly the lines that contain [app_name] or
    [</resources>] and removes every other line; the marker line and the
    closing-tag line are retained verbatim. *)
Theorem span_filtered (pre : list str) (m : str) (mid : list str) (c : str)
    (post : list str) :
  contains app_name m = true ->
  contains close_tag c = true ->
  filter_lines (pre ++ m :: mid ++ c :: post) =
  filter_lines pre ++ m :: List.filter kept_while_deleting mid
                   ++ c :: List.filter kept_while_deleting post.
Proof.
  intros A C.
  rewrite (filter_lines_kept_line pre m _ (kept_marker _ A)).
  rewrite (existsb_marker_snoc _ _ A).
  rewrite List.filter_app. simpl. by rewrite (kept_closing _ C).
Qed.

Lemma span_filtered_witness :
  filter_lines ([lit "<resources>"] ++ lit "<string name='app_name'>X</string>"
                :: [lit "<string name='foo'>Y</string>"; lit "<string name='bar'>Z</string>"]
                ++ lit "</resources>" :: [])
  = [lit "<resources>"; lit "<string name='app_name'>X</string>"; lit "</resources>"].
Proof.
  exact (span_filtered [lit "<resources>"] (lit "<string name='app_name'>X</string>")
           [lit "<string name='foo'>Y</string>"; lit "<string name='bar'>Z</string>"]
           (lit "</resources>") [] eq_refl eq_refl).
Defined.

(** *** C6 *)

(** C6, as stated, fails: [startDelete] is never cleared, so a line after
    the closing-tag line is dropped like the lines before it. *)
Lemma after_closing_kept_counterexample :
  contains app_name (lit "<string name='app_name'>X</string>") = true /\
  contains close_tag (lit "</resources>") = true /\
  ~ after_closing_kept [] (lit "<string name='app_name'>X</string>") []
      (lit "</resources>") [lit "<!-- end -->"].
Proof.
  split; [reflexivity|]. split; [reflexivity|].
  intros [head H]. apply (f_equal (@rev str)) in H.
  rewrite rev_app_distr in H. vm_compute in H. discriminate H.
Qed.

(** C6, amended: once a marker line has been seen, the closing-tag line is
    kept, and a line after it is kept unchanged exactly when it contains
    [app_name] or [</resources>]; the other lines after it are dropped. *)
Theorem after_closing_filtered (before : list str) (c : str) (post : list str) :
  existsb (contains app_name) before = true ->
  contains close_tag c = true ->
  filter_lines (before ++ c :: post) =
  filter_lines before ++ c :: List.filter kept_while_deleting post.
Proof.
  intros A C.
  rewrite (filter_lines_kept_line before c _ (kept_closing _ C)).
  by rewrite existsb_app, A.
Qed.

Lemma after_closing_filtered_witness :
  filter_lines ([lit "<string name='app_name'>X</string>"; lit "<string name='foo'>Y</string>"]
                ++ lit "</resources>" :: [lit "<!-- end -->"; lit "</resources>"])
  = [lit "<string name='app_name'>X</string>"; lit "</resources>"; lit "</resources>"].
Proof.
  exact (after_closing_filtered
           [lit "<string name='app_name'>X</string>"; lit "<string name='foo'>Y</string>"]
           (lit "</resources>") [lit "<!-- end -->"; lit "</resources>"] eq_refl eq_refl).
Defined.

(** *** C4 *)

(** C4: the line filter is idempotent. *)
Theorem filter_lines_idempotent (lines : list str) :
  filter_lines (filter_lines lines) = filter_lines lines.
Proof.
  induction lines as [|line lines IH]; [done|].
  rewrite filter_lines_cons, filter_lines_cons.
  destruct (contains app_name line).
  - by rewrite filter_kept_twice.
  - by rewrite IH.
Qed.

(** *** C10 *)

(** C10: a line containing [app_name] is kept wherever it stands, after
    the output for the lines before it; so the lines of the output that
    contain [app_name] are those of the input, in the same order. *)
Theorem every_marker_line_kept (before : list str) (line : str) (rest : list str) :
  contains app_name line = true ->
  filter_lines (before ++ line :: rest) =
    filter_lines before ++ line :: List.filter kept_while_deleting rest /\
  List.filter (contains app_name) (filter_lines (before ++ line :: rest)) =
    List.filter (contains app_name) (before ++ line :: rest).
Proof.
  intros A. split.
  - rewrite (filter_lines_kept_line before line _ (kept_marker _ A)).
    by rewrite (existsb_marker_snoc _ _ A).
  - apply filter_marker_of_output.
Qed.

Lemma every_marker_line_kept_witness :
  filter_lines ([lit "<string name='app_name'>X</string>"; lit "<string name='foo'>Y</string>"]
                ++ lit "<string name='app_name_short'>Z</string>" :: [lit "</resources>"])
  = [lit "<string name='app_name'>X</string>"; lit "<string name='app_name_short'>Z</string>";
     lit "</resources>"].
Proof.
  exact (proj1 (every_marker_line_kept
           [lit "<string name='app_name'>X</string>"; lit "<string name='foo'>Y</string>"]
           (lit "<string name='app_name_short'>Z</string>") [lit "</resources>"] eq_refl)).
Defined.

End StripFilter.

(** ** Running the scripts *)

Section Running.

Lemma bind_inl {A B} (m : M A) (k : A -> M B) st a st' :
  m st = (inl a, st') -> bind m k st = k a st'.
Proof. unfold bind. by intros ->. Qed.

Lemma emit_run e st :
  emit e st = (inl tt, State (fs st) (heap st) (trace st ++ [e])).
Proof. reflexivity. Qed.

Lemma read_file_ok path st text :
  fs st !! path = Some text ->
  read_file path st = (inl text, State (fs st) (heap st) (trace st ++ [OpenRead path])).
Proof. intros H. unfold read_file, bind, emit. simpl. by rewrite H. Qed.

Lemma load_ok E path st text root h :
  fs st !! path = Some text ->
  yaml_load E text = Some (root, h) ->
  load E path st = (inl root, State (fs st) h (trace st ++ [OpenRead path])).
Proof.
  intros F L. unfold load.
  rewrite (bind_inl _ _ _ _ _ (read_file_ok _ _ _ F)), L.
  reflexivity.
Qed.

Lemma options_of_ok dataLoaded st opts :
  subscript (heap st) dataLoaded (release_tag_path ++ [options]) = inr opts ->
  options_of dataLoaded st = (inl opts, st).
Proof. intros H. unfold options_of, bind, get_heap. by rewrite H. Qed.

Lemma differs_run opts tags st :
  differs opts tags st = (inl (negb (eq_list (heap st) opts tags)), st).
Proof. reflexivity. Qed.

Lemma shown_run o st : shown o st = (inl (PObj o (heap st)), st).
Proof. reflexivity. Qed.

Lemma dump_run E path dataLoaded st :
  dump E path dataLoaded st =
  (inl tt, State (<[path := yaml_dump E dataLoaded (heap st)]> (fs st)) (heap st)
                 (trace st ++ [OpenWrite path])).
Proof. reflexivity. Qed.

(** *** In-place update of one mapping *)

Lemma find_key_set_key_eq k v entries :
  find_key k (set_key k v entries) = Some v.
Proof.
  induction entries as [|[x w] rest IH]; simpl.
  - by rewrite bool_decide_eq_true_2.
  - destruct (key_is k x) eqn:K; simpl; by rewrite K.
Qed.

Lemma key_is_inj k k' x : key_is k x = true -> key_is k' x = true -> k = k'.
Proof.
  destruct x as [s|r]; simpl; [|done].
  intros ?%bool_decide_eq_true ?%bool_decide_eq_true. congruence.
Qed.

Lemma find_key_set_key_ne k k' v entries :
  k <> k' -> find_key k (set_key k' v entries) = find_key k entries.
Proof.
  intros Hne. induction entries as [|[x w] rest IH]; simpl.
  - by rewrite bool_decide_eq_false_2.
  - destruct (key_is k' x) eqn:K'; simpl.
    + destruct (key_is k x) eqn:K; [|done].
      destruct Hne. eapply key_is_inj; eauto.
    + by rewrite IH.
Qed.

Lemma set_key_keys k v entries :
  find_key k entries <> None -> (set_key k v entries).*1 = entries.*1.
Proof.
  induction entries as [|[x w] rest IH]; [done|].
  cbn [set_key find_key]. destruct (key_is k x).
  - intros _. by rewrite !fmap_cons.
  - intros H. rewrite !fmap_cons. f_equal. by apply IH.
Qed.

Lemma set_key_others k v entries i x w :
  entries !! i = Some (x, w) -> key_is k x = false ->
  set_key k v entries !! i = Some (x, w).
Proof.
  revert i. induction entries as [|[y u] rest IH]; intros i; simpl; [done|].
  destruct i as [|i]; simpl.
  - intros [= -> ->] ->. done.
  - intros H K. destruct (key_is k y); simpl; [done|]. by apply IH.
Qed.

Lemma getitem_dict h o k x :
  getitem h o k = inr x ->
  exists l a entries,
    o = VRef l /\ h !! l = Some (CDict a entries) /\ find_key k entries = Some x.
Proof.
  unfold getitem. destruct o as [| |l]; try done.
  destruct (h !! l) as [[|a entries]|] eqn:Hl; try done.
  destruct (find_key k entries) eqn:F; try done.
  intros [= ->]. eauto 6.
Qed.

Lemma subscript_app h o ks ks' :
  subscript h o (ks ++ ks') =
  match subscript h o ks with
  | inl e => inl e
  | inr o' => subscript h o' ks'
  end.
Proof.
  revert o. induction ks as [|k ks IH]; intros o; simpl; [done|].
  destruct (getitem h o k); [done|]. apply IH.
Qed.

Lemma getitem_updated h rt a entries l tags o k x :
  h !! rt = Some (CDict a entries) -> h !! l = None -> k <> options ->
  getitem h o k = inr x ->
  getitem (updated h rt a entries l tags) o k = inr x.
Proof.
  intros Hrt Hl Hk G.
  destruct (getitem_dict _ _ _ _ G) as (lo & a' & es & -> & Hlo & F).
  unfold getitem, updated.
  destruct (decide (lo = rt)) as [->|Hne].
  - rewrite lookup_insert_eq. rewrite Hrt in Hlo. injection Hlo as <- <-.
    by rewrite (find_key_set_key_ne _ _ _ _ Hk), F.
  - rewrite lookup_insert_ne by done.
    rewrite lookup_insert_ne by (intros <-; congruence).
    by rewrite Hlo, F.
Qed.

Lemma subscript_updated h rt a entries l tags ks o x :
  h !! rt = Some (CDict a entries) -> h !! l = None ->
  Forall (fun k => k <> options) ks ->
  subscript h o ks = inr x ->
  subscript (updated h rt a entries l tags) o ks = inr x.
Proof.
  intros Hrt Hl Hks. revert o.
  induction Hks as [|k ks Hk _ IH]; intros o; simpl; [done|].
  destruct (getitem h o k) as [e|o'] eqn:G; [done|].
  rewrite (getitem_updated _ _ _ _ _ _ _ _ _ Hrt Hl Hk G). apply IH.
Qed.

Lemma release_tag_path_not_options :
  Forall (fun k => k <> options) release_tag_path.
Proof. repeat constructor; intros H; vm_compute in H; discriminate H. Qed.

Lemma fresh_loc_unused (h : store) : h !! fresh (dom h) = None.
Proof. apply not_elem_of_dom, is_fresh. Qed.

Lemma set_options_ok dataLoaded tags st rt a entries :
  subscript (heap st) dataLoaded release_tag_path = inr (VRef rt) ->
  heap st !! rt = Some (CDict a entries) ->
  set_options dataLoaded tags st =
  (inl tt, State (fs st) (updated (heap st) rt a entries (fresh (dom (heap st))) tags)
                 (trace st)).
Proof.
  intros S Hrt. unfold set_options, bind, get_heap, alloc, lift, ret, put_heap.
  rewrite S. cbn beta iota.
  unfold setitem.
  rewrite lookup_insert_ne.
  2:{ intros E. pose proof (fresh_loc_unused (heap st)) as F. rewrite E in F. congruence. }
  rewrite Hrt. reflexivity.
Qed.

Lemma options_path_split h root opts :
  subscript h root (release_tag_path ++ [options]) = inr opts ->
  exists rt a entries,
    subscript h root release_tag_path = inr (VRef rt) /\
    h !! rt = Some (CDict a entries) /\
    find_key options entries = Some opts.
Proof.
  rewrite subscript_app.
  destruct (subscript h root release_tag_path) as [e|target] eqn:S; [done|].
  cbn [subscript].
  destruct (getitem h target options) as [e|o] eqn:G; [done|].
  intros [= ->].
  destruct (getitem_dict _ _ _ _ G) as (rt & a & entries & -> & Hrt & F).
  eauto 6.
Qed.

Lemma options_of_updated h root rt a entries l tags st :
  subscript h root release_tag_path = inr (VRef rt) ->
  h !! rt = Some (CDict a entries) -> h !! l = None ->
  heap st = updated h rt a entries l tags ->
  options_of root st = (inl (VRef l), st).
Proof.
  intros S Hrt Hl Hst. apply options_of_ok. rewrite Hst, subscript_app.
  rewrite (subscript_updated _ _ _ _ _ _ _ _ _ Hrt Hl release_tag_path_not_options S).
  cbn [subscript]. unfold getitem, updated.
  by rewrite lookup_insert_eq, find_key_set_key_eq.
Qed.

Lemma git_tag_ok E top output st :
  repo_tag_output E top = Some output ->
  SyncRepo.git_tag E top st = (inl output, State (fs st) (heap st) (trace st ++ [RunGit])).
Proof. intros H. unfold SyncRepo.git_tag, bind, emit. by rewrite H. Qed.

Lemma popen_git_tag_run E st :
  SyncShell.popen_git_tag E st =
  (inl (popen_tag_output E), State (fs st) (heap st) (trace st ++ [RunGit])).
Proof. reflexivity. Qed.

Ltac step_with lem := erewrite bind_inl; [|apply lem]; cbn [fs heap trace].
Ltac step_by tac := erewrite bind_inl; [|tac]; cbn [fs heap trace].

Lemma sync_update_run v E script arg files output text root h opts :
  tag_listing v E (abspath E arg) = Some output ->
  files !! yaml_path (abspath E arg) = Some text ->
  yaml_load E text = Some (root, h) ->
  subscript h root (release_tag_path ++ [options]) = inr opts ->
  eq_list h opts (tags_of output) = false ->
  exists rt a entries tr,
    subscript h root release_tag_path = inr (VRef rt) /\
    h !! rt = Some (CDict a entries) /\
    find_key options entries = Some opts /\
    run (sync_main v E [script; arg]) (start files) =
    (0%Z, State (<[yaml_path (abspath E arg) :=
                  yaml_dump E root (updated h rt a entries (fresh (dom h)) (tags_of output))]> files)
               (updated h rt a entries (fresh (dom h)) (tags_of output)) tr) /\
    writes tr = [OpenWrite (yaml_path (abspath E arg))].
Proof.
  intros T F L S D.
  destruct (options_path_split _ _ _ S) as (rt & a & entries & Srt & Hrt & Fo).
  exists rt, a, entries.
  pose proof (fresh_loc_unused h) as Hl.
  destruct v; cbn [sync_main tag_listing] in *.
  - unfold run, SyncRepo.main, start. cbn [length Nat.eqb negb].
    change (list_lookup_total 1%nat [script; arg]) with arg.
    step_by ltac:(apply git_tag_ok; eassumption).
    step_by ltac:(eapply load_ok; cbn [fs]; eassumption).
    step_by ltac:(apply options_of_ok; cbn [heap]; eassumption).
    step_with differs_run. rewrite D. cbn [negb].
    step_by ltac:(apply options_of_ok; cbn [heap]; eassumption).
    step_with shown_run.
    step_with emit_run.
    step_by ltac:(eapply set_options_ok; cbn [heap]; eassumption).
    step_with dump_run.
    step_by ltac:(eapply (options_of_updated h); cbn [heap]; eauto).
    step_with shown_run.
    step_with emit_run.
    step_with emit_run.
    unfold exit. cbn [status].
    eexists. repeat split; try eassumption.
  - injection T as <-.
    unfold run, SyncShell.main, start. cbn [length Nat.eqb negb].
    change (list_lookup_total 1%nat [script; arg]) with arg.
    step_with emit_run.
    step_with popen_git_tag_run.
    step_by ltac:(eapply load_ok; cbn [fs]; eassumption).
    step_by ltac:(apply options_of_ok; cbn [heap]; eassumption).
    step_with shown_run.
    step_with emit_run.
    step_by ltac:(apply options_of_ok; cbn [heap]; eassumption).
    step_with differs_run. rewrite D. cbn [negb].
    step_by ltac:(eapply set_options_ok; cbn [heap]; eassumption).
    step_by ltac:(eapply (options_of_updated h); cbn [heap]; eauto).
    step_with shown_run.
    step_with emit_run.
    step_with dump_run.
    unfold print. rewrite emit_run. cbn [status fs heap trace].
    eexists. repeat split; try eassumption.
Qed.

Lemma sync_noop_run v E script arg files output text root h opts :
  tag_listing v E (abspath E arg) = Some output ->
  files !! yaml_path (abspath E arg) = Some text ->
  yaml_load E text = Some (root, h) ->
  subscript h root (release_tag_path ++ [options]) = inr opts ->
  eq_list h opts (tags_of output) = true ->
  exists tr,
    run (sync_main v E [script; arg]) (start files) =
    (match v with RepoObject => 93 | ShellInvocation => 0 end%Z, State files h tr) /\
    writes tr = [].
Proof.
  intros T F L S D.
  destruct v; cbn [sync_main tag_listing] in *.
  - unfold run, SyncRepo.main, start. cbn [length Nat.eqb negb].
    change (list_lookup_total 1%nat [script; arg]) with arg.
    step_by ltac:(apply git_tag_ok; eassumption).
    step_by ltac:(eapply load_ok; cbn [fs]; eassumption).
    step_by ltac:(apply options_of_ok; cbn [heap]; eassumption).
    step_with differs_run. rewrite D. cbn [negb].
    step_with emit_run.
    unfold exit. cbn [status].
    eexists. split; reflexivity.
  - injection T as <-.
    unfold run, SyncShell.main, start. cbn [length Nat.eqb negb].
    change (list_lookup_total 1%nat [script; arg]) with arg.
    step_with emit_run.
    step_with popen_git_tag_run.
    step_by ltac:(eapply load_ok; cbn [fs]; eassumption).
    step_by ltac:(apply options_of_ok; cbn [heap]; eassumption).
    step_with shown_run.
    step_with emit_run.
    step_by ltac:(apply options_of_ok; cbn [heap]; eassumption).
    step_with differs_run. rewrite D. cbn [negb].
    unfold print. rewrite emit_run. cbn [status fs heap trace].
    eexists. split; reflexivity.
Qed.

Lemma eq_items_plain tags : eq_items (VStr None <$> tags) tags = true.
Proof.
  induction tags as [|t tags IH]; [done|].
  rewrite fmap_cons. cbn [eq_items eq_str].
  by rewrite bool_decide_eq_true_2, IH.
Qed.

Lemma split_not_nil sep s : split sep s <> [].
Proof.
  destruct s as [|c s]; simpl; [done|].
  destruct (c =? sep); [done|]. by destruct (split sep s).
Qed.

Lemma updated_new h rt a entries l tags :
  h !! rt = Some (CDict a entries) -> h !! l = None ->
  updated h rt a entries l tags !! l = Some (plain_list tags).
Proof.
  intros Hrt Hl. unfold updated.
  rewrite lookup_insert_ne by (intros <-; congruence).
  apply lookup_insert_eq.
Qed.

Lemma updated_others h rt a entries l tags l' :
  h !! l = None -> l' <> rt -> is_Some (h !! l') ->
  updated h rt a entries l tags !! l' = h !! l'.
Proof.
  intros Hl Hne [c Hc]. unfold updated.
  rewrite lookup_insert_ne by done.
  by rewrite lookup_insert_ne by (intros <-; congruence).
Qed.

End Running.

(** ** The tag sync *)

Section TagSync.

(** *** C1 *)

(** C1, as stated, fails: the scripts write the file with the round-trip
    dumper at its default indentation, which lays every block sequence
    out anew; lines that have nothing to do with the options change. *)
Lemma file_preserved_counterexample :
  eq_list Layout.workflow (VRef 6%positive) (tags_of Sample.three_tags) = false /\
  fst (run (sync_main RepoObject Layout.default_layout [Sample.script_name; Sample.top])
           (start Layout.workflow_files)) = 0%Z /\
  ~ Layout.file_preserved RepoObject Layout.default_layout Sample.script_name Sample.top
      Layout.workflow_files.
Proof.
  split; [reflexivity|]. split; [vm_compute; reflexivity|].
  intros H. destruct (H Layout.original) as (new & Hnew & P); [reflexivity|].
  vm_compute in Hnew. injection Hnew as <-.
  vm_compute in P. discriminate P.
Qed.

Example hand_edit_preserves_file :
  Layout.only_options_differ Layout.original Layout.edited_by_hand = true.
Proof. reflexivity. Qed.

(** C1, amended: when the options of the loaded document differ from the
    computed tag list, a run of either variant exits with status 0 and
    overwrites the workflow file with the dump of the document in which
    [options] is the new tag list; in that document the [releaseTag]
    mapping keeps its keys, their order and every other value, and every
    other object is as it was loaded, with what the loader recorded of
    its formatting. How the dump lays the document out as text is the
    dumper's. *)
Theorem options_rewritten (v : variant) (E : env) (script arg : str)
    (files : gmap str str) (output text : str) (root : value) (h : store)
    (opts : value) :
  tag_listing v E (abspath E arg) = Some output ->
  files !! yaml_path (abspath E arg) = Some text ->
  yaml_load E text = Some (root, h) ->
  subscript h root (release_tag_path ++ [options]) = inr opts ->
  eq_list h opts (tags_of output) = false ->
  exists (rt : loc) (a : ann) (entries entries' : list (key * value)) (l : loc)
         (h' : store) (tr : list event),
    run (sync_main v E [script; arg]) (start files) =
      (0%Z, State (<[yaml_path (abspath E arg) := yaml_dump E root h']> files) h' tr) /\
    writes tr = [OpenWrite (yaml_path (abspath E arg))] /\
    subscript h' root (release_tag_path ++ [options]) = inr (VRef l) /\
    h' !! l = Some (plain_list (tags_of output)) /\
    eq_list h' (VRef l) (tags_of output) = true /\
    subscript h root release_tag_path = inr (VRef rt) /\
    h !! rt = Some (CDict a entries) /\
    h' !! rt = Some (CDict a entries') /\
    entries'.*1 = entries.*1 /\
    (forall i x w, entries !! i = Some (x, w) -> key_is options x = false ->
                   entries' !! i = Some (x, w)) /\
    (forall l', l' <> rt -> is_Some (h !! l') -> h' !! l' = h !! l').
Proof.
  intros T F L S D.
  destruct (sync_update_run v E script arg files output text root h opts T F L S D)
    as (rt & a & entries & tr & Srt & Hrt & Fo & R & W).
  pose proof (fresh_loc_unused h) as Hl.
  set (l := fresh (dom h)) in *.
  exists rt, a, entries, (set_key options (VRef l) entries), l,
    (updated h rt a entries l (tags_of output)), tr.
  pose proof (updated_new h rt a entries l (tags_of output) Hrt Hl) as Hnew.
  repeat split; try done.
  - rewrite subscript_app.
    rewrite (subscript_updated _ _ _ _ _ _ _ _ _ Hrt Hl release_tag_path_not_options Srt).
    cbn [subscript]. unfold getitem, updated.
    by rewrite lookup_insert_eq, find_key_set_key_eq.
  - unfold eq_list. rewrite Hnew. apply eq_items_plain.
  - unfold updated. apply lookup_insert_eq.
  - apply set_key_keys. by rewrite Fo.
  - intros i x w. apply set_key_others.
  - intros l'. by apply updated_others.
Qed.

Lemma options_rewritten_witness :
  exists st, run (sync_main RepoObject (Sample.surroundings Sample.three_tags) Sample.argv)
                 (start Sample.files) = (0%Z, st) /\
             fs st !! yaml_path Sample.top = Some (lit "name: Publish Release (rewritten)").
Proof.
  destruct (options_rewritten RepoObject (Sample.surroundings Sample.three_tags)
              Sample.script_name Sample.top Sample.files Sample.three_tags
              Sample.yaml_text Sample.root Sample.document Sample.loaded_options)
    as (rt & a & entries & entries' & l & h' & tr & R & _);
    [reflexivity | reflexivity | reflexivity | reflexivity | reflexivity |].
  eexists. split; [exact R|]. cbn [fs]. apply lookup_insert_eq.
Defined.

(** *** C3 *)

(** C3: when the options of the loaded document equal the computed tag
    list, a run of either variant opens no file for writing and leaves
    every file as it was; the repository-object variant exits with status
    93, the shell-invocation variant with status 0. *)
Theorem up_to_date_leaves_file (v : variant) (E : env) (script arg : str)
    (files : gmap str str) (output text : str) (root : value) (h : store)
    (opts : value) :
  tag_listing v E (abspath E arg) = Some output ->
  files !! yaml_path (abspath E arg) = Some text ->
  yaml_load E text = Some (root, h) ->
  subscript h root (release_tag_path ++ [options]) = inr opts ->
  eq_list h opts (tags_of output) = true ->
  exists (code : Z) (st : state),
    run (sync_main v E [script; arg]) (start files) = (code, st) /\
    fs st = files /\
    fs st !! yaml_path (abspath E arg) = Some text /\
    writes (trace st) = [] /\
    code = match v with RepoObject => 93 | ShellInvocation => 0 end%Z.
Proof.
  intros T F L S D.
  destruct (sync_noop_run v E script arg files output text root h opts T F L S D)
    as (tr & R & W).
  eexists _, _. split; [exact R|]. by cbn [fs trace].
Qed.

Lemma up_to_date_leaves_file_witness :
  (exists st, run (sync_main RepoObject (Sample.surroundings Sample.two_tags) Sample.argv)
                  (start Sample.files) = (93%Z, st) /\ fs st = Sample.files) /\
  (exists st, run (sync_main ShellInvocation (Sample.surroundings Sample.two_tags) Sample.argv)
                  (start Sample.files) = (0%Z, st) /\ fs st = Sample.files).
Proof.
  split.
  - destruct (up_to_date_leaves_file RepoObject (Sample.surroundings Sample.two_tags)
                Sample.script_name Sample.top Sample.files Sample.two_tags
                Sample.yaml_text Sample.root Sample.document Sample.loaded_options)
      as (code & st & R & Hfs & _ & _ & ->);
      [reflexivity | reflexivity | reflexivity | reflexivity | reflexivity |].
    exists st. by split.
  - destruct (up_to_date_leaves_file ShellInvocation (Sample.surroundings Sample.two_tags)
                Sample.script_name Sample.top Sample.files Sample.two_tags
                Sample.yaml_text Sample.root Sample.document Sample.loaded_options)
      as (code & st & R & Hfs & _ & _ & ->);
      [reflexivity | reflexivity | reflexivity | reflexivity | reflexivity |].
    exists st. by split.
Defined.

(** *** C8 *)

(** C8: on the same loaded document and with the same computed tag list,
    the two variants leave the same document and the same files and open
    the same files for writing; the shell-invocation variant exits with
    status 0 in both cases, the repository-object variant with 93 when
    nothing is written. *)
Theorem variants_agree (E : env) (script arg : str) (files : gmap str str)
    (output text : str) (root : value) (h : store) (opts : value) :
  repo_tag_output E (abspath E arg) = Some output ->
  tags_of (popen_tag_output E) = tags_of output ->
  files !! yaml_path (abspath E arg) = Some text ->
  yaml_load E text = Some (root, h) ->
  subscript h root (release_tag_path ++ [options]) = inr opts ->
  exists (code : Z) (st1 st2 : state),
    run (SyncRepo.main E [script; arg]) (start files) = (code, st1) /\
    run (SyncShell.main E [script; arg]) (start files) = (0%Z, st2) /\
    heap st1 = heap st2 /\
    fs st1 = fs st2 /\
    writes (trace st1) = writes (trace st2) /\
    code = (if eq_list h opts (tags_of output) then 93 else 0)%Z.
Proof.
  intros T Same F L S.
  assert (T2 : tag_listing ShellInvocation E (abspath E arg) = Some (popen_tag_output E))
    by reflexivity.
  destruct (eq_list h opts (tags_of output)) eqn:D.
  - destruct (sync_noop_run RepoObject E script arg files output text root h opts T F L S D)
      as (tr1 & R1 & W1).
    rewrite <- Same in D.
    destruct (sync_noop_run ShellInvocation E script arg files _ text root h opts T2 F L S D)
      as (tr2 & R2 & W2).
    eexists _, _, _. split; [exact R1|]. split; [exact R2|].
    cbn [heap fs trace]. by rewrite W1, W2.
  - destruct (sync_update_run RepoObject E script arg files output text root h opts T F L S D)
      as (rt & a & entries & tr1 & Srt & Hrt & _ & R1 & W1).
    rewrite <- Same in D.
    destruct (sync_update_run ShellInvocation E script arg files _ text root h opts T2 F L S D)
      as (rt' & a' & entries' & tr2 & Srt' & Hrt' & _ & R2 & W2).
    rewrite Same in R2.
    assert (rt' = rt) as -> by congruence.
    assert (a' = a /\ entries' = entries) as [-> ->] by (split; congruence).
    eexists _, _, _. split; [exact R1|]. split; [exact R2|].
    cbn [heap fs trace]. by rewrite W1, W2.
Qed.

Lemma variants_agree_witness :
  exists st1 st2,
    run (SyncRepo.main (Sample.surroundings Sample.three_tags) Sample.argv)
        (start Sample.files) = (0%Z, st1) /\
    run (SyncShell.main (Sample.surroundings Sample.three_tags) Sample.argv)
        (start Sample.files) = (0%Z, st2) /\
    heap st1 = heap st2 /\ fs st1 = fs st2.
Proof.
  destruct (variants_agree (Sample.surroundings Sample.three_tags) Sample.script_name
              Sample.top Sample.files Sample.three_tags Sample.yaml_text Sample.root
              Sample.document Sample.loaded_options)
    as (code & st1 & st2 & R1 & R2 & Hh & Hf & _ & ->);
    [reflexivity | reflexivity | reflexivity | reflexivity | reflexivity |].
  exists st1, st2. repeat split; assumption.
Defined.

(** *** C9 *)

(** C9: an empty tag listing gives the one-element list holding the empty
    string, and no listing gives the empty list; so the list that an
    updating run of either variant stores as [options] is never empty, and
    is the list holding the empty string when the listing is empty. *)
Theorem no_tag_is_one_empty_tag :
  tags_of [] = [[]] /\
  (forall output, tags_of output <> []) /\
  (forall (v : variant) (E : env) (script arg : str) (files : gmap str str)
          (output text : str) (root : value) (h : store) (opts : value),
     tag_listing v E (abspath E arg) = Some output ->
     files !! yaml_path (abspath E arg) = Some text ->
     yaml_load E text = Some (root, h) ->
     subscript h root (release_tag_path ++ [options]) = inr opts ->
     eq_list h opts (tags_of output) = false ->
     exists (l : loc) (items : list value) (st : state),
       run (sync_main v E [script; arg]) (start files) = (0%Z, st) /\
       subscript (heap st) root (release_tag_path ++ [options]) = inr (VRef l) /\
       heap st !! l = Some (CList None items) /\
       items <> [] /\
       (output = [] -> items = [VStr None []])).
Proof.
  split; [reflexivity|]. split; [intros output; apply split_not_nil|].
  intros v E script arg files output text root h opts T F L S D.
  destruct (sync_update_run v E script arg files output text root h opts T F L S D)
    as (rt & a & entries & tr & Srt & Hrt & _ & R & _).
  pose proof (fresh_loc_unused h) as Hl.
  eexists _, (VStr None <$> tags_of output), _. split; [exact R|]. cbn [heap].
  split; [|split; [|split]].
  - rewrite subscript_app.
    rewrite (subscript_updated _ _ _ _ _ _ _ _ _ Hrt Hl release_tag_path_not_options Srt).
    cbn [subscript]. unfold getitem, updated.
    by rewrite lookup_insert_eq, find_key_set_key_eq.
  - by apply updated_new.
  - pose proof (split_not_nil 10 (strip output)) as N. unfold tags_of.
    by destruct (split 10 (strip output)).
  - by intros ->.
Qed.

Lemma no_tag_is_one_empty_tag_witness :
  exists l st,
    run (sync_main ShellInvocation (Sample.surroundings []) Sample.argv)
        (start Sample.files) = (0%Z, st) /\
    heap st !! l = Some (CList None [VStr None []]).
Proof.
  destruct (proj2 (proj2 no_tag_is_one_empty_tag) ShellInvocation (Sample.surroundings [])
              Sample.script_name Sample.top Sample.files [] Sample.yaml_text Sample.root
              Sample.document Sample.loaded_options)
    as (l & items & st & R & _ & Hl & _ & Hitems);
    [reflexivity | reflexivity | reflexivity | reflexivity | reflexivity |].
  exists l, st. split; [exact R|]. by rewrite Hl, (Hitems eq_refl).
Defined.

End TagSync.

(** ** The argument check *)

Section ArgumentCheck.

(** *** C7 *)

(** C7: when [sys.argv] does not have exactly two entries (the script and
    one argument), each of the three scripts prints its usage message and
    exits with status 93; no file is opened and every file is as it was. *)
Theorem wrong_argument_count (s : script) (E : env) (argv : list str) (st : state) :
  length argv <> 2%nat ->
  exists msg,
    run (script_main s E argv) st =
    (93%Z, State (fs st) (heap st) (trace st ++ [Print [PStr msg]])).
Proof.
  intros H. apply Nat.eqb_neq in H.
  destruct s as [|[|]];
    unfold run, script_main, sync_main, StripScript.main, SyncRepo.main, SyncShell.main;
    rewrite H; cbn [negb];
    (erewrite bind_inl; [|apply emit_run]);
    unfold exit; cbn [status]; eexists; reflexivity.
Qed.

Lemma wrong_argument_count_witness :
  exists msg,
    run (script_main Stripper (Sample.surroundings []) [lit "strip.py"]) (start Sample.files)
    = (93%Z, State Sample.files ∅ [Print [PStr msg]]).
Proof.
  destruct (wrong_argument_count Stripper (Sample.surroundings []) [lit "strip.py"]
              (start Sample.files)) as [msg R]; [cbn; lia|].
  exists msg. exact R.
Defined.

End ArgumentCheck.

(** * Further properties of the code *)

(** One step of a run: the first computation of a [bind] returns. *)
Ltac run_step lem := erewrite bind_inl; [|apply lem]; cbn [fs heap trace].
Ltac run_step_by tac := erewrite bind_inl; [|tac]; cbn [fs heap trace].

(** ** Strings *)

Section Strings.

Lemma starts_with_spec p s :
  starts_with p s = true <-> exists rest, s = p ++ rest.
Proof.
  revert s. induction p as [|a p IH]; intros s; simpl.
  - split; [eauto|done].
  - destruct s as [|b s].
    + split; [done|]. by intros [rest ?].
    + rewrite andb_true_iff, N.eqb_eq, IH. split.
      * intros [-> [rest ->]]. eauto.
      * intros [rest [= -> ->]]. eauto.
Qed.

Lemma contains_infix (p s : str) :
  contains p s = true <-> exists before after, s = before ++ p ++ after.
Proof.
  induction s as [|c s IH]; simpl.
  - rewrite orb_false_r, starts_with_spec. split.
    + intros [rest H]. exists [], rest. done.
    + intros (before & after & H). symmetry in H.
      apply app_eq_nil in H as [-> H]. apply app_eq_nil in H as [-> ->].
      by exists [].
  - rewrite orb_true_iff, starts_with_spec, IH. split.
    + intros [[rest H]|(before & after & ->)].
      * exists [], rest. done.
      * exists (c :: before), after. done.
    + intros (before & after & H). destruct before as [|b before].
      * left. exists after. done.
      * right. injection H as -> ->. eauto.
Qed.

(** X1: [p in s] holds exactly when [s] is some text, then [p], then some
    text. *)
Theorem contains_spec (p s : str) :
  contains p s = true <-> exists before after, s = before ++ p ++ after.
Proof. apply contains_infix. Qed.

Lemma elem_of_rev {A} (x : A) (l : list A) : x ∈ rev l <-> x ∈ l.
Proof. rewrite !list_elem_of_In. symmetry. apply in_rev. Qed.

Lemma readlines_from_concat cur s :
  concat (readlines_from cur s) = rev cur ++ s.
Proof.
  revert cur. induction s as [|c s IH]; intros cur; simpl.
  - destruct cur; simpl; by rewrite ?app_nil_r.
  - destruct (c =? 10) eqn:C; simpl.
    + rewrite IH. simpl. by rewrite <- app_assoc.
    + rewrite IH. simpl. by rewrite <- app_assoc.
Qed.

(** X2: the lines that [readlines] returns, joined, are the text. *)
Theorem join_readlines (text : str) : join (readlines text) = text.
Proof. unfold join, readlines. by rewrite readlines_from_concat. Qed.

Lemma concat_readlines text : concat (readlines text) = text.
Proof. unfold readlines. by rewrite readlines_from_concat. Qed.

Lemma readlines_from_ok cur s :
  10 ∉ cur -> lines_ok (readlines_from cur s).
Proof.
  revert cur. induction s as [|c s IH]; intros cur Hcur; simpl.
  - destruct cur as [|a cur]; [constructor|].
    apply lines_ok_last. split.
    + intros H. apply (f_equal length) in H. rewrite length_rev in H. done.
    + by rewrite elem_of_rev.
  - destruct (c =? 10) eqn:C.
    + apply N.eqb_eq in C as ->. apply lines_ok_cons.
      * exists (rev cur). split; [done|]. by rewrite elem_of_rev.
      * apply IH. apply not_elem_of_nil.
    + apply IH. apply N.eqb_neq in C. rewrite elem_of_cons. intros [?|?]; done.
Qed.

Lemma readlines_from_body cur body s :
  10 ∉ body ->
  readlines_from cur (body ++ s) = readlines_from (rev body ++ cur) s.
Proof.
  revert cur. induction body as [|b body IH]; intros cur Hb; simpl; [done|].
  apply not_elem_of_cons in Hb as [Hne Hb].
  destruct (b =? 10) eqn:C; [apply N.eqb_eq in C; congruence|].
  rewrite IH by done. by rewrite <- app_assoc.
Qed.

Lemma readlines_concat_ok lines :
  lines_ok lines -> readlines (concat lines) = lines.
Proof.
  unfold readlines. induction 1 as [|line [Hne Hnl]|line lines (body & -> & Hb) _ IH]; simpl.
  - done.
  - rewrite app_nil_r.
    rewrite <- (app_nil_r line) at 1. rewrite readlines_from_body by done. simpl.
    rewrite app_nil_r.
    destruct (rev line) eqn:R.
    + apply (f_equal length) in R. rewrite length_rev in R. by destruct line.
    + by rewrite <- R, rev_involutive.
  - rewrite <- app_assoc. rewrite readlines_from_body by done. simpl.
    rewrite IH. by rewrite app_nil_r, rev_involutive.
Qed.

Lemma lines_ok_sublist lines lines' :
  lines_ok lines -> lines' `sublist_of` lines -> lines_ok lines'.
Proof.
  intros H. revert lines'.
  induction H as [|line U|line lines T _ IH]; intros lines' S.
  - apply sublist_nil_r in S as ->. constructor.
  - apply sublist_cons_r in S as [S|(k & -> & S)].
    + apply sublist_nil_r in S as ->. constructor.
    + apply sublist_nil_r in S as ->. by constructor.
  - apply sublist_cons_r in S as [S|(k & -> & S)].
    + by apply IH.
    + apply lines_ok_cons; [done|]. by apply IH.
Qed.

(** *** [strip] and [split] *)

Lemma lstrip_spaces ws s :
  forallb is_space ws = true -> lstrip (ws ++ s) = lstrip s.
Proof.
  induction ws as [|c ws IH]; simpl; [done|].
  intros [-> H]%andb_true_iff. by apply IH.
Qed.

Lemma lstrip_app s t :
  lstrip (s ++ t) = if forallb is_space s then lstrip t else lstrip s ++ t.
Proof.
  induction s as [|c s IH]; simpl; [done|].
  destruct (is_space c); simpl; [apply IH|done].
Qed.

Lemma lstrip_head s c rest : lstrip s = c :: rest -> is_space c = false.
Proof.
  induction s as [|a s IH]; simpl; [done|].
  destruct (is_space a) eqn:A; [done|]. by intros [= <- _].
Qed.

Lemma forallb_rev {A} (f : A -> bool) l : forallb f (rev l) = forallb f l.
Proof.
  induction l as [|x l IH]; simpl; [done|].
  rewrite forallb_app, IH. simpl. rewrite andb_true_r. apply andb_comm.
Qed.

Lemma rstrip_spaces s ws :
  forallb is_space ws = true -> rstrip (s ++ ws) = rstrip s.
Proof.
  intros H. unfold rstrip. rewrite rev_app_distr.
  by rewrite lstrip_spaces by (by rewrite forallb_rev).
Qed.

Lemma rstrip_nil : rstrip [] = [].
Proof. reflexivity. Qed.

Lemma strip_surrounded ws1 s ws2 :
  forallb is_space ws1 = true -> forallb is_space ws2 = true ->
  strip (ws1 ++ s ++ ws2) = strip s.
Proof.
  intros H1 H2. unfold strip. rewrite (lstrip_spaces _ _ H1), lstrip_app.
  destruct (forallb is_space s) eqn:S.
  - rewrite <- (app_nil_r ws2), (lstrip_spaces _ _ H2).
    rewrite <- (app_nil_r s). by rewrite (lstrip_spaces _ _ S).
  - by apply rstrip_spaces.
Qed.

(** X3: [strip] leaves a text that neither starts nor ends with white
    space. *)
Theorem strip_edges (s : str) :
  (forall c rest, strip s = c :: rest -> is_space c = false) /\
  (forall init c, strip s = init ++ [c] -> is_space c = false).
Proof.
  unfold strip, rstrip. split.
  - intros c rest H.
    destruct (lstrip s) as [|a t] eqn:L; [done|].
    pose proof (lstrip_head _ _ _ L) as A.
    simpl in H. rewrite lstrip_app in H.
    destruct (forallb is_space (rev t)); simpl in H; rewrite ?A in H.
    + simpl in H. by simplify_eq.
    + rewrite rev_app_distr in H. simpl in H. by simplify_eq.
  - intros init c H. apply (f_equal (@rev N)) in H.
    rewrite rev_involutive, rev_app_distr in H. simpl in H.
    by apply lstrip_head in H.
Qed.

Lemma strip_edges_witness :
  is_space (N_of_ascii "v") = false.
Proof.
  apply (proj1 (strip_edges (lit "  v1.0 ")) (N_of_ascii "v") (lit "1.0")).
  reflexivity.
Defined.

Lemma split_cons sep s : exists f fs, split sep s = f :: fs.
Proof.
  destruct s as [|c s]; simpl; [eauto|].
  destruct (c =? sep); [eauto|]. destruct (split sep s); eauto.
Qed.

Lemma split_no_sep sep s : Forall (fun f => sep ∉ f) (split sep s).
Proof.
  induction s as [|c s IH]; simpl.
  - repeat constructor. apply not_elem_of_nil.
  - destruct (c =? sep) eqn:C.
    + constructor; [apply not_elem_of_nil|done].
    + apply N.eqb_neq in C. destruct (split sep s) as [|f fs].
      * repeat constructor. rewrite elem_of_cons, elem_of_nil. intros [->|[]]. done.
      * inversion IH as [|? ? Hf Hfs]; subst. constructor; [|done].
        rewrite elem_of_cons. intros [->|?]; done.
Qed.

Lemma join_with_split sep s : join_with sep (split sep s) = s.
Proof.
  induction s as [|c s IH]; simpl; [done|].
  destruct (split_cons sep s) as (f & fs & E). rewrite E in *.
  destruct (c =? sep) eqn:C.
  - apply N.eqb_eq in C as ->. by rewrite <- IH.
  - destruct fs; by rewrite <- IH.
Qed.

Lemma split_length sep s :
  length (split sep s) = S (length (List.filter (N.eqb sep) s)).
Proof.
  induction s as [|c s IH]; simpl; [done|].
  destruct (split_cons sep s) as (f & fs & E). rewrite E in *.
  rewrite (N.eqb_sym sep c). destruct (c =? sep); simpl in *; lia.
Qed.

End Strings.

(** ** The tag list and the paths *)

Section TagList.

(** X4: the tags, joined by newlines, are the stripped output of the
    listing: nothing but the surrounding white space is lost. *)
Theorem tags_joined (output : str) :
  join_with 10 (tags_of output) = strip output.
Proof. apply join_with_split. Qed.

(** X5: no tag holds a newline, and there is one tag more than there are
    newlines in the stripped output; a blank line inside the listing is an
    empty tag. *)
Theorem tags_without_newline (output : str) :
  Forall (fun tag => 10 ∉ tag) (tags_of output) /\
  length (tags_of output) = S (length (List.filter (N.eqb 10) (strip output))).
Proof. split; [apply split_no_sep|apply split_length]. Qed.

(** X6: white space around the listing, such as the newline that ends it,
    does not change the tags. *)
Theorem tags_of_surrounded (ws1 output ws2 : str) :
  forallb is_space ws1 = true ->
  forallb is_space ws2 = true ->
  tags_of (ws1 ++ output ++ ws2) = tags_of output.
Proof. intros H1 H2. unfold tags_of. by rewrite strip_surrounded. Qed.

Lemma tags_of_surrounded_witness :
  tags_of (lit " " ++ (lit "v1.1" ++ [10] ++ lit "v1.0") ++ [10; 10])
  = [lit "v1.1"; lit "v1.0"].
Proof.
  exact (tags_of_surrounded (lit " ") (lit "v1.1" ++ [10] ++ lit "v1.0") [10; 10]
           eq_refl eq_refl).
Defined.

Lemma contains_char c s : contains [c] s = true <-> c ∈ s.
Proof.
  rewrite contains_infix. split.
  - intros (before & after & ->). rewrite elem_of_app. right. apply list_elem_of_here.
  - intros (before & after & ->)%list_elem_of_split. by exists before, after.
Qed.

Lemma basename_after_slash p name :
  47 ∉ name -> basename (p ++ 47 :: name) = name.
Proof.
  intros H. induction p as [|c p IH]; simpl.
  - destruct (contains [47] name) eqn:C; [by apply contains_char in C|done].
  - destruct (contains [47] (p ++ 47 :: name)) eqn:C; [done|].
    assert (contains [47] (p ++ 47 :: name) = true) as C'; [|congruence].
    apply contains_char. rewrite elem_of_app. right. apply list_elem_of_here.
Qed.

(** X7: whatever the top level, the file name the tag sync prints is
    [publish_release.yml]. *)
Theorem basename_yaml_path (top : str) :
  basename (yaml_path top) = lit "publish_release.yml".
Proof.
  unfold yaml_path.
  change (lit "/.github/workflows/publish_release.yml")
    with (lit "/.github/workflows" ++ 47 :: lit "publish_release.yml").
  rewrite app_assoc. apply basename_after_slash.
  intros H%contains_char. vm_compute in H. discriminate H.
Qed.

(** X8: whatever the folder, the file the stripper reads and writes is
    named [strings.xml]. *)
Theorem basename_strings_xml (folder : str) :
  basename (path_join folder (lit "strings.xml")) = lit "strings.xml".
Proof.
  assert (N : 47 ∉ lit "strings.xml").
  { intros H%contains_char. vm_compute in H. discriminate H. }
  unfold path_join.
  change (starts_with [47] (lit "strings.xml")) with false. cbv iota.
  destruct (last folder) as [c|] eqn:L.
  - apply last_Some in L as [init ->].
    destruct (c =? 47) eqn:C.
    + apply N.eqb_eq in C as ->. rewrite <- app_assoc.
      by apply basename_after_slash.
    + by apply basename_after_slash.
  - reflexivity.
Qed.

End TagList.

(** ** More on the line filter *)

Section StripFilterMore.

Import Strip.

Lemma filter_sublist {A} (f : A -> bool) (l : list A) : List.filter f l `sublist_of` l.
Proof.
  induction l as [|x l IH]; simpl; [constructor|].
  destruct (f x); by constructor.
Qed.

Lemma filter_lines_sub (lines : list str) : filter_lines lines `sublist_of` lines.
Proof.
  induction lines as [|line lines IH]; [constructor|].
  rewrite filter_lines_cons. apply sublist_skip.
  destruct (contains app_name line); [apply filter_sublist|done].
Qed.

(** X9: the output of the filter is the input with some lines left out:
    no line is added, changed or moved. *)
Theorem filter_lines_sublist (lines : list str) :
  filter_lines lines `sublist_of` lines /\
  (length (filter_lines lines) <= length lines)%nat.
Proof.
  split; [apply filter_lines_sub|]. apply sublist_length, filter_lines_sub.
Qed.

(** X10: the filter on a text in two parts: the second part is filtered
    as a text of its own when the first has no marker line, and is
    reduced to its marker and closing-tag lines otherwise. *)
Theorem filter_lines_app (first second : list str) :
  filter_lines (first ++ second) =
  filter_lines first ++
  (if existsb (contains app_name) first
   then List.filter kept_while_deleting second
   else filter_lines second).
Proof.
  induction first as [|line first IH]; [done|].
  simpl. rewrite !filter_lines_cons.
  destruct (contains app_name line); simpl.
  - by rewrite List.filter_app.
  - by rewrite IH.
Qed.

(** X11: when no line after a marker line contains [</resources>], the
    deletion runs to the end of the text: after the marker only the lines
    that contain [app_name] are left. *)
Theorem unterminated_deletion (before : list str) (m : str) (rest : list str) :
  contains app_name m = true ->
  Forall (fun line => contains close_tag line = false) rest ->
  filter_lines (before ++ m :: rest) =
  filter_lines before ++ m :: List.filter (contains app_name) rest.
Proof.
  intros A C.
  rewrite (filter_lines_kept_line before m _ (kept_marker _ A)).
  rewrite (existsb_marker_snoc _ _ A). do 2 f_equal.
  induction C as [|line rest Hc _ IH]; [done|].
  simpl. unfold kept_while_deleting at 1. rewrite Hc, orb_false_r.
  destruct (contains app_name line); by rewrite IH.
Qed.

Lemma unterminated_deletion_witness :
  filter_lines ([lit "<resources>"] ++ lit "<string name='app_name'>X</string>"
                :: [lit "<string name='foo'>Y</string>"; lit "<!-- no closing tag -->"])
  = [lit "<resources>"; lit "<string name='app_name'>X</string>"].
Proof.
  apply (unterminated_deletion [lit "<resources>"] (lit "<string name='app_name'>X</string>")
           [lit "<string name='foo'>Y</string>"; lit "<!-- no closing tag -->"] eq_refl).
  repeat constructor.
Defined.

Lemma filter_closing_of_kept lines :
  List.filter (contains close_tag) (List.filter kept_while_deleting lines)
  = List.filter (contains close_tag) lines.
Proof.
  induction lines as [|line lines IH]; simpl; [done|].
  unfold kept_while_deleting at 1.
  destruct (contains close_tag line) eqn:C; simpl.
  - rewrite orb_true_r. simpl. by rewrite C, IH.
  - rewrite orb_false_r. destruct (contains app_name line); simpl; [by rewrite C|done].
Qed.

(** X12: every line that contains [</resources>] is kept, wherever it
    stands: the closing-tag lines of the output are those of the input, in
    the same order. *)
Theorem every_closing_line_kept (lines : list str) :
  List.filter (contains close_tag) (filter_lines lines)
  = List.filter (contains close_tag) lines.
Proof.
  induction lines as [|line lines IH]; [done|].
  rewrite filter_lines_cons. simpl.
  destruct (contains app_name line); destruct (contains close_tag line);
    by rewrite ?filter_closing_of_kept, ?IH.
Qed.

End StripFilterMore.

(** ** Running the stripper *)

Section StripRun.

Import Strip.

Lemma bind_inr {A B} (m : M A) (k : A -> M B) st r st' :
  m st = (inr r, st') -> bind m k st = (inr r, st').
Proof. unfold bind. by intros ->. Qed.

Lemma read_file_missing path st :
  fs st !! path = None ->
  read_file path st =
  (inr (Uncaught (FileNotFoundError path)),
   State (fs st) (heap st) (trace st ++ [OpenRead path])).
Proof. intros H. unfold read_file, bind, emit. simpl. by rewrite H. Qed.

Lemma write_file_run path text st :
  write_file path text st =
  (inl tt, State (<[path := text]> (fs st)) (heap st) (trace st ++ [OpenWrite path])).
Proof. reflexivity. Qed.

Lemma strip_run_ok E script folder files text :
  files !! path_join (abspath E folder) (lit "strings.xml") = Some text ->
  run (StripScript.main E [script; folder]) (start files) =
  (0%Z, State (<[path_join (abspath E folder) (lit "strings.xml") :=
                 join (filter_lines (readlines text))]> files) ∅
          [Print [PStr (path_join (abspath E folder) (lit "strings.xml"))];
           OpenRead (path_join (abspath E folder) (lit "strings.xml"));
           Print [PStr (join (filter_lines (readlines text)))];
           OpenWrite (path_join (abspath E folder) (lit "strings.xml"))]).
Proof.
  intros F.
  unfold run, StripScript.main, start. cbn [length Nat.eqb negb].
  change (list_lookup_total 1%nat [script; folder]) with folder.
  run_step emit_run.
  run_step_by ltac:(apply read_file_ok; cbn [fs]; exact F).
  run_step emit_run.
  rewrite write_file_run. reflexivity.
Qed.

Lemma strip_run_missing E script folder files :
  files !! path_join (abspath E folder) (lit "strings.xml") = None ->
  run (StripScript.main E [script; folder]) (start files) =
  (1%Z, State files ∅
          [Print [PStr (path_join (abspath E folder) (lit "strings.xml"))];
           OpenRead (path_join (abspath E folder) (lit "strings.xml"))]).
Proof.
  intros F.
  unfold run, StripScript.main, start. cbn [length Nat.eqb negb].
  change (list_lookup_total 1%nat [script; folder]) with folder.
  run_step emit_run.
  erewrite bind_inr; [|apply read_file_missing; cbn [fs]; exact F].
  reflexivity.
Qed.

(** X13: given its folder and an existing [strings.xml], the stripper
    exits with status 0 and leaves in that file the filtered lines of its
    text, joined; it prints the path and the new text, opens the file once
    for reading and once for writing, and touches no other file. *)
Theorem strip_rewrites_file (E : env) (script folder : str) (files : gmap str str)
    (text : str) :
  let path := path_join (abspath E folder) (lit "strings.xml") in
  let new_text := join (filter_lines (readlines text)) in
  files !! path = Some text ->
  run (StripScript.main E [script; folder]) (start files) =
  (0%Z, State (<[path := new_text]> files) ∅
          [Print [PStr path]; OpenRead path; Print [PStr new_text]; OpenWrite path]).
Proof. intros path new_text F. by apply strip_run_ok. Qed.

Lemma strip_rewrites_file_witness :
  fst (run (StripScript.main (Sample.surroundings []) [lit "strip.py"; lit "/res/values"])
           (start {[ lit "/res/values/strings.xml" := lit "<resources>" ]})) = 0%Z.
Proof.
  rewrite (strip_rewrites_file (Sample.surroundings []) (lit "strip.py") (lit "/res/values")
             {[ lit "/res/values/strings.xml" := lit "<resources>" ]} (lit "<resources>"));
    reflexivity.
Defined.

(** X14: when the folder holds no [strings.xml], the stripper stops on the
    uncaught error of [open] with status 1, after printing the path; no
    file is written. *)
Theorem strip_missing_file (E : env) (script folder : str) (files : gmap str str) :
  let path := path_join (abspath E folder) (lit "strings.xml") in
  files !! path = None ->
  run (StripScript.main E [script; folder]) (start files) =
  (1%Z, State files ∅ [Print [PStr path]; OpenRead path]).
Proof. intros path F. by apply strip_run_missing. Qed.

Lemma strip_missing_file_witness :
  fst (run (StripScript.main (Sample.surroundings []) [lit "strip.py"; lit "/res/values"])
           (start ∅)) = 1%Z.
Proof.
  rewrite (strip_missing_file (Sample.surroundings []) (lit "strip.py") (lit "/res/values") ∅);
    reflexivity.
Defined.

Lemma line_of_text p text line :
  line ∈ readlines text -> contains p line = true -> contains p text = true.
Proof.
  intros (l1 & l2 & Hl)%list_elem_of_split (a & b & ->)%contains_infix.
  apply contains_infix.
  exists (concat l1 ++ a), (b ++ concat l2).
  rewrite <- (concat_readlines text), Hl.
  rewrite concat_app. simpl. by rewrite <- !app_assoc.
Qed.

Lemma universal_newlines_id raw : 13 ∉ raw -> universal_newlines raw = raw.
Proof.
  induction raw as [|c raw IH]; [done|].
  intros [Hc Hraw]%not_elem_of_cons. cbn [universal_newlines].
  destruct (c =? 13) eqn:C; [apply N.eqb_eq in C; congruence|].
  by rewrite IH.
Qed.

(** X15: when the content of [strings.xml] holds neither [app_name] nor a
    carriage return, the stripper writes it back as it was: every file is
    unchanged, and [strings.xml] holds that content again. (Reading turns
    a carriage return into a newline, so a content with one is not
    written back as it was.) *)
Theorem strip_without_marker (E : env) (script folder : str) (files : gmap str str)
    (raw : str) :
  files !! path_join (abspath E folder) (lit "strings.xml") = Some (universal_newlines raw) ->
  contains app_name raw = false ->
  13 ∉ raw ->
  fs (snd (run (StripScript.main E [script; folder]) (start files))) = files /\
  fs (snd (run (StripScript.main E [script; folder]) (start files)))
    !! path_join (abspath E folder) (lit "strings.xml") = Some raw.
Proof.
  intros F A R. rewrite (universal_newlines_id raw R) in F.
  rewrite (strip_run_ok E script folder files raw F). cbn [snd fs].
  assert (K : filter_lines (readlines raw) = readlines raw).
  { rewrite <- (app_nil_r (readlines raw)) at 1.
    assert (Forall (fun line => contains app_name line = false) (readlines raw)) as H.
    { apply Forall_forall. intros line Hin.
      destruct (contains app_name line) eqn:C; [|done].
      by rewrite (line_of_text _ _ _ Hin C) in A. }
    clear F A R. induction H as [|line lines Hl _ IH]; [done|].
    simpl. by rewrite filter_lines_cons, Hl, IH. }
  unfold join. rewrite K, concat_readlines.
  split; [by apply insert_id|apply lookup_insert_eq].
Qed.

Lemma strip_without_marker_witness :
  fs (snd (run (StripScript.main (Sample.surroundings []) [lit "strip.py"; lit "/res/values"])
               (start {[ lit "/res/values/strings.xml" :=
                           lit "<resources>" ++ [10] ++ lit "</resources>" ++ [10] ]})))
  = {[ lit "/res/values/strings.xml" :=
         lit "<resources>" ++ [10] ++ lit "</resources>" ++ [10] ]}.
Proof.
  apply (strip_without_marker (Sample.surroundings []) (lit "strip.py") (lit "/res/values")
           {[ lit "/res/values/strings.xml" :=
                lit "<resources>" ++ [10] ++ lit "</resources>" ++ [10] ]}
           (lit "<resources>" ++ [10] ++ lit "</resources>" ++ [10]));
    [reflexivity | reflexivity |].
  intros H%contains_char. vm_compute in H. discriminate H.
Defined.

Lemma filter_lines_fixed lines : filter_lines (filter_lines lines) = filter_lines lines.
Proof.
  induction lines as [|line lines IH]; [done|].
  rewrite !filter_lines_cons.
  destruct (contains app_name line); by rewrite ?filter_kept_twice, ?IH.
Qed.

Lemma strip_usage_run E argv st :
  length argv <> 2%nat ->
  fs (snd (run (StripScript.main E argv) st)) = fs st.
Proof.
  intros H. apply Nat.eqb_neq in H.
  unfold run, StripScript.main. rewrite H. cbn [negb].
  erewrite bind_inl; [|apply emit_run]. reflexivity.
Qed.

(** X16: running the stripper a second time changes nothing: whatever the
    arguments and the files, the files after two runs are the files after
    one. *)
Theorem strip_twice (E : env) (argv : list str) (files : gmap str str) :
  let once := fs (snd (run (StripScript.main E argv) (start files))) in
  fs (snd (run (StripScript.main E argv) (start once))) = once.
Proof.
  intros once. subst once.
  destruct (decide (length argv = 2%nat)) as [L|L].
  - destruct argv as [|script [|folder [|? ?]]]; try done.
    set (path := path_join (abspath E folder) (lit "strings.xml")).
    destruct (files !! path) as [text|] eqn:F.
    + rewrite (strip_run_ok E script folder files text F). cbn [snd fs].
      fold path.
      set (t1 := join (filter_lines (readlines text))).
      rewrite (strip_run_ok E script folder _ t1) by apply lookup_insert_eq.
      cbn [snd fs]. fold path.
      assert (R : readlines t1 = filter_lines (readlines text)).
      { apply readlines_concat_ok.
        apply (lines_ok_sublist (readlines text)).
        - apply readlines_from_ok, not_elem_of_nil.
        - apply filter_lines_sub. }
      rewrite R, filter_lines_fixed. apply insert_insert_eq.
    + rewrite (strip_run_missing E script folder files F). cbn [snd fs].
      by rewrite (strip_run_missing E script folder files F).
  - rewrite !strip_usage_run by done. reflexivity.
Qed.

End StripRun.

(** ** The tag sync on its failing paths *)

Section SyncFailures.

Lemma git_tag_fails E top st :
  repo_tag_output E top = None ->
  SyncRepo.git_tag E top st =
  (inr (Uncaught GitError), State (fs st) (heap st) (trace st ++ [RunGit])).
Proof. intros H. unfold SyncRepo.git_tag, bind, emit. by rewrite H. Qed.

Lemma load_missing E path st :
  fs st !! path = None ->
  load E path st =
  (inr (Uncaught (FileNotFoundError path)),
   State (fs st) (heap st) (trace st ++ [OpenRead path])).
Proof.
  intros F. unfold load. by rewrite (bind_inr _ _ _ _ _ (read_file_missing _ _ F)).
Qed.

Lemma load_parse_error E path st text :
  fs st !! path = Some text ->
  yaml_load E text = None ->
  load E path st =
  (inr (Uncaught YAMLError), State (fs st) (heap st) (trace st ++ [OpenRead path])).
Proof.
  intros F L. unfold load.
  rewrite (bind_inl _ _ _ _ _ (read_file_ok _ _ _ F)), L. reflexivity.
Qed.

Lemma options_of_fails dataLoaded st e :
  subscript (heap st) dataLoaded (release_tag_path ++ [options]) = inl e ->
  options_of dataLoaded st = (inr (Uncaught e), st).
Proof. intros H. unfold options_of, bind, get_heap. by rewrite H. Qed.

Lemma sync_usage_run v E argv st :
  length argv <> 2%nat ->
  run (sync_main v E argv) st =
  (93%Z, State (fs st) (heap st) (trace st ++ [Print [PStr usage]])).
Proof.
  intros H. apply Nat.eqb_neq in H.
  destruct v; unfold run, sync_main, SyncRepo.main, SyncShell.main;
    rewrite H; cbn [negb]; (erewrite bind_inl; [|apply emit_run]); reflexivity.
Qed.

Lemma sync_run_git_fails E script arg files :
  repo_tag_output E (abspath E arg) = None ->
  run (SyncRepo.main E [script; arg]) (start files) = (1%Z, State files ∅ [RunGit]).
Proof.
  intros T. unfold run, SyncRepo.main, start. cbn [length Nat.eqb negb].
  change (list_lookup_total 1%nat [script; arg]) with arg.
  erewrite bind_inr; [|apply git_tag_fails; exact T]. reflexivity.
Qed.

(** The run of a variant that stops on the exception [e] before any file
    is written, with the store [h]. *)
Lemma sync_run_load_fails v E script arg files output :
  tag_listing v E (abspath E arg) = Some output ->
  (files !! yaml_path (abspath E arg) = None \/
   exists text, files !! yaml_path (abspath E arg) = Some text /\ yaml_load E text = None) ->
  exists tr,
    run (sync_main v E [script; arg]) (start files) = (1%Z, State files ∅ tr) /\
    writes tr = [].
Proof.
  intros T H.
  assert (exists e, forall st, fs st = files ->
            load E (yaml_path (abspath E arg)) st =
            (inr (Uncaught e), State (fs st) (heap st)
                                 (trace st ++ [OpenRead (yaml_path (abspath E arg))])))
    as [e Hload].
  { destruct H as [F|(text & F & L)].
    - eexists. intros st <-. by apply load_missing.
    - eexists. intros st <-. by eapply load_parse_error. }
  destruct v; cbn [sync_main tag_listing] in *.
  - unfold run, SyncRepo.main, start. cbn [length Nat.eqb negb].
    change (list_lookup_total 1%nat [script; arg]) with arg.
    run_step_by ltac:(apply git_tag_ok; eassumption).
    erewrite bind_inr; [|apply Hload; reflexivity]. cbn [fs heap trace status].
    eexists. split; reflexivity.
  - unfold run, SyncShell.main, start. cbn [length Nat.eqb negb].
    change (list_lookup_total 1%nat [script; arg]) with arg.
    run_step emit_run.
    run_step popen_git_tag_run.
    erewrite bind_inr; [|apply Hload; reflexivity]. cbn [fs heap trace status].
    eexists. split; reflexivity.
Qed.

Lemma sync_run_no_options v E script arg files output text root h e :
  tag_listing v E (abspath E arg) = Some output ->
  files !! yaml_path (abspath E arg) = Some text ->
  yaml_load E text = Some (root, h) ->
  subscript h root (release_tag_path ++ [options]) = inl e ->
  exists tr,
    run (sync_main v E [script; arg]) (start files) = (1%Z, State files h tr) /\
    writes tr = [].
Proof.
  intros T F L S.
  destruct v; cbn [sync_main tag_listing] in *.
  - unfold run, SyncRepo.main, start. cbn [length Nat.eqb negb].
    change (list_lookup_total 1%nat [script; arg]) with arg.
    run_step_by ltac:(apply git_tag_ok; eassumption).
    run_step_by ltac:(eapply load_ok; cbn [fs]; eassumption).
    erewrite bind_inr; [|apply options_of_fails; cbn [heap]; eassumption].
    cbn [status]. eexists. split; reflexivity.
  - unfold run, SyncShell.main, start. cbn [length Nat.eqb negb].
    change (list_lookup_total 1%nat [script; arg]) with arg.
    run_step emit_run.
    run_step popen_git_tag_run.
    run_step_by ltac:(eapply load_ok; cbn [fs]; eassumption).
    erewrite bind_inr; [|apply options_of_fails; cbn [heap]; eassumption].
    cbn [status]. eexists. split; reflexivity.
Qed.

Lemma sync_classify v E script arg files :
  exists code st,
    run (sync_main v E [script; arg]) (start files) = (code, st) /\
    ((code = 1%Z /\ fs st = files /\ writes (trace st) = []) \/
     (code = match v with RepoObject => 93 | ShellInvocation => 0 end%Z /\
      fs st = files /\ writes (trace st) = []) \/
     (code = 0%Z /\
      (exists root h, fs st = <[yaml_path (abspath E arg) := yaml_dump E root h]> files) /\
      writes (trace st) = [OpenWrite (yaml_path (abspath E arg))])).
Proof.
  destruct (tag_listing v E (abspath E arg)) as [output|] eqn:T.
  2:{ destruct v; [|done]. eexists _, _. split; [by apply sync_run_git_fails|].
      left. done. }
  destruct (files !! yaml_path (abspath E arg)) as [text|] eqn:F.
  2:{ destruct (sync_run_load_fails v E script arg files output T) as (tr & R & W);
        [by left|].
      eexists _, _. split; [exact R|]. left. done. }
  destruct (yaml_load E text) as [[root h]|] eqn:L.
  2:{ destruct (sync_run_load_fails v E script arg files output T) as (tr & R & W);
        [right; eauto|].
      eexists _, _. split; [exact R|]. left. done. }
  destruct (subscript h root (release_tag_path ++ [options])) as [e|opts] eqn:S.
  { destruct (sync_run_no_options v E script arg files output text root h e T F L S)
      as (tr & R & W).
    eexists _, _. split; [exact R|]. left. done. }
  destruct (eq_list h opts (tags_of output)) eqn:D.
  - destruct (sync_noop_run v E script arg files output text root h opts T F L S D)
      as (tr & R & W).
    eexists _, _. split; [exact R|]. right. left. done.
  - destruct (sync_update_run v E script arg files output text root h opts T F L S D)
      as (rt & a & entries & tr & _ & _ & _ & R & W).
    eexists _, _. split; [exact R|]. right. right. cbn [fs trace]. eauto.
Qed.

(** X17: when the repository object cannot be had or its tag command
    fails, the repository-object variant stops with status 1 before it
    opens any file. *)
Theorem git_failure_opens_no_file (E : env) (script arg : str) (files : gmap str str) :
  repo_tag_output E (abspath E arg) = None ->
  run (SyncRepo.main E [script; arg]) (start files) = (1%Z, State files ∅ [RunGit]).
Proof. apply sync_run_git_fails. Qed.

Lemma git_failure_opens_no_file_witness :
  run (SyncRepo.main (Sample.surroundings Sample.three_tags)
         [Sample.script_name; lit "/elsewhere"]) (start Sample.files)
  = (1%Z, State Sample.files ∅ [RunGit]).
Proof.
  apply (git_failure_opens_no_file (Sample.surroundings Sample.three_tags)
           Sample.script_name (lit "/elsewhere") Sample.files).
  reflexivity.
Defined.

(** X18: when the workflow file does not exist, either variant stops on
    the uncaught error of [open] with status 1; nothing is written. *)
Theorem missing_workflow_file (v : variant) (E : env) (script arg : str)
    (files : gmap str str) (output : str) :
  tag_listing v E (abspath E arg) = Some output ->
  files !! yaml_path (abspath E arg) = None ->
  exists tr,
    run (sync_main v E [script; arg]) (start files) = (1%Z, State files ∅ tr) /\
    writes tr = [].
Proof. intros T F. eapply sync_run_load_fails; eauto. Qed.

Lemma missing_workflow_file_witness :
  exists tr,
    run (sync_main ShellInvocation (Sample.surroundings Sample.three_tags) Sample.argv)
        (start ∅) = (1%Z, State ∅ ∅ tr).
Proof.
  destruct (missing_workflow_file ShellInvocation (Sample.surroundings Sample.three_tags)
              Sample.script_name Sample.top ∅ Sample.three_tags)
    as (tr & R & _); [reflexivity | reflexivity |].
  exists tr. exact R.
Defined.

(** X19: when the workflow file does not parse, either variant stops
    with status 1; the file is left as it was. *)
Theorem unparsable_workflow_file (v : variant) (E : env) (script arg : str)
    (files : gmap str str) (output text : str) :
  tag_listing v E (abspath E arg) = Some output ->
  files !! yaml_path (abspath E arg) = Some text ->
  yaml_load E text = None ->
  exists tr,
    run (sync_main v E [script; arg]) (start files) = (1%Z, State files ∅ tr) /\
    writes tr = [].
Proof. intros T F L. eapply sync_run_load_fails; eauto. Qed.

Lemma unparsable_workflow_file_witness :
  exists tr,
    run (sync_main RepoObject (Sample.surroundings Sample.three_tags) Sample.argv)
        (start {[ yaml_path Sample.top := lit "on: [" ]})
    = (1%Z, State {[ yaml_path Sample.top := lit "on: [" ]} ∅ tr).
Proof.
  destruct (unparsable_workflow_file RepoObject (Sample.surroundings Sample.three_tags)
              Sample.script_name Sample.top {[ yaml_path Sample.top := lit "on: [" ]}
              Sample.three_tags (lit "on: ["))
    as (tr & R & _); [reflexivity | reflexivity | reflexivity |].
  exists tr. exact R.
Defined.

(** X20: when the loaded document has no
    [on.workflow_dispatch.inputs.releaseTag.options] (a key is missing or
    a node on the way is no mapping), either variant stops on the uncaught
    lookup error with status 1; nothing is written. *)
Theorem missing_options_path (v : variant) (E : env) (script arg : str)
    (files : gmap str str) (output text : str) (root : value) (h : store) (e : exn) :
  tag_listing v E (abspath E arg) = Some output ->
  files !! yaml_path (abspath E arg) = Some text ->
  yaml_load E text = Some (root, h) ->
  subscript h root (release_tag_path ++ [options]) = inl e ->
  exists tr,
    run (sync_main v E [script; arg]) (start files) = (1%Z, State files h tr) /\
    writes tr = [].
Proof. apply sync_run_no_options. Qed.

Lemma missing_options_path_witness :
  exists tr,
    run (sync_main RepoObject Incomplete.without_options Sample.argv) (start Sample.files)
    = (1%Z, State Sample.files Incomplete.partial_document tr).
Proof.
  destruct (missing_options_path RepoObject Incomplete.without_options Sample.script_name
              Sample.top Sample.files Sample.three_tags Sample.yaml_text Sample.root
              Incomplete.partial_document (KeyError options))
    as (tr & R & _); [reflexivity | reflexivity | reflexivity | reflexivity |].
  exists tr. exact R.
Defined.

End SyncFailures.

(** ** The tag sync as a whole *)

Section SyncWhole.

Lemma lookup_total_second (script arg : str) :
  [script; arg] !!! 1%nat = arg.
Proof. reflexivity. Qed.

(** X21: whatever its arguments and the files, a run of either variant
    exits with status 0, 1 or 93, writes no file but the workflow file of
    its argument, and writes nothing at all unless it exits with
    status 0. *)
Theorem sync_writes_only_workflow_file (v : variant) (E : env) (argv : list str)
    (files : gmap str str) :
  exists code st,
    run (sync_main v E argv) (start files) = (code, st) /\
    (code = 0 \/ code = 1 \/ code = 93)%Z /\
    (code <> 0%Z -> fs st = files /\ writes (trace st) = []) /\
    (forall p, p <> yaml_path (abspath E (argv !!! 1%nat)) -> fs st !! p = files !! p) /\
    Forall (fun e => e = OpenWrite (yaml_path (abspath E (argv !!! 1%nat))))
           (writes (trace st)).
Proof.
  destruct (decide (length argv = 2%nat)) as [L|L].
  - destruct argv as [|script [|arg [|? ?]]]; try done.
    rewrite lookup_total_second.
    destruct (sync_classify v E script arg files) as (code & st & R & H).
    exists code, st. split; [exact R|].
    destruct H as [(-> & Hf & W)|[(-> & Hf & W)|(-> & (root & h & Hf) & W)]];
      rewrite Hf, W.
    + repeat split; auto.
    + repeat split; auto. destruct v; auto.
    + repeat split; auto; try done.
      intros p Hp. by rewrite lookup_insert_ne.
  - rewrite (sync_usage_run v E argv _ L). eexists _, _. split; [done|].
    cbn [fs trace]. repeat split; auto.
Qed.

Lemma sync_writes_only_workflow_file_witness :
  exists code st,
    run (sync_main RepoObject (Sample.surroundings Sample.three_tags) Sample.argv)
        (start Sample.files) = (code, st) /\
    fs st !! lit "/repo/README.md" = Sample.files !! lit "/repo/README.md".
Proof.
  destruct (sync_writes_only_workflow_file RepoObject
              (Sample.surroundings Sample.three_tags) Sample.argv Sample.files)
    as (code & st & R & _ & _ & Other & _).
  exists code, st. split; [exact R|].
  apply Other. intros H. vm_compute in H. discriminate H.
Defined.

(** X22: given one argument, the shell-invocation variant never exits
    with status 93: there 93 means a wrong argument count and nothing
    else. *)
Theorem shell_status_93_is_usage (E : env) (argv : list str) (files : gmap str str) :
  fst (run (SyncShell.main E argv) (start files)) = 93%Z <-> length argv <> 2%nat.
Proof.
  split.
  - intros H L.
    destruct argv as [|script [|arg [|? ?]]]; try done.
    destruct (sync_classify ShellInvocation E script arg files) as (code & st & R & C).
    cbn [sync_main] in R. rewrite R in H. cbn [fst] in H.
    destruct C as [(-> & _)|[(-> & _)|(-> & _)]]; done.
  - intros L. by rewrite (sync_usage_run ShellInvocation E argv _ L).
Qed.



End SyncWhole.

(** ** The document store *)

Section Store.

(** X25: after [o[k] = v] on a mapping, [o[k]] is [v], and every other
    key of every mapping reads as before. *)
Theorem setitem_getitem (h h' : store) (o : value) (k : str) (v : value) :
  setitem h o k v = inr h' ->
  getitem h' o k = inr v /\
  (forall o' k', k' <> k -> getitem h' o' k' = getitem h o' k').
Proof.
  unfold setitem. destruct o as [| |l]; try done.
  destruct (h !! l) as [[|a entries]|] eqn:Hl; try done.
  intros [= <-]. split.
  - unfold getitem. by rewrite lookup_insert_eq, find_key_set_key_eq.
  - intros o' k' Hk. unfold getitem. destruct o' as [| |l']; try done.
    destruct (decide (l' = l)) as [->|Hne].
    + by rewrite lookup_insert_eq, Hl, find_key_set_key_ne.
    + by rewrite lookup_insert_ne.
Qed.

Lemma setitem_getitem_witness :
  exists h',
    setitem Sample.document (VRef 5%positive) options (VOther (lit "none")) = inr h' /\
    getitem h' (VRef 5%positive) options = inr (VOther (lit "none")).
Proof.
  destruct (setitem Sample.document (VRef 5%positive) options (VOther (lit "none")))
    as [e|h'] eqn:S; [by vm_compute in S|].
  exists h'. split; [done|].
  exact (proj1 (setitem_getitem Sample.document h' (VRef 5%positive) options
                  (VOther (lit "none")) S)).
Defined.

End Store.

(** ** The scripts on small inputs *)

Example split_empty : split 10 (strip []) = [[]].
Proof. reflexivity. Qed.

Example basename_yaml :
  basename (lit "/r/.github/workflows/publish_release.yml") = lit "publish_release.yml".
Proof. reflexivity. Qed.

Example readlines_ex :
  readlines (lit "ab
c") = [lit "ab
"; lit "c"].
Proof. reflexivity. Qed.

Example strip_scenario :
  Strip.filter_lines
    [lit "<resources>"; lit "<string name=app_name>X</string>";
     lit "<string name=foo>Y</string>"; lit "</resources>"]
  = [lit "<resources>"; lit "<string name=app_name>X</string>"; lit "</resources>"].
Proof. reflexivity. Qed.

Example sync_scenario :
  let '(code, st) := run (sync_main RepoObject (Sample.surroundings Sample.three_tags) Sample.argv)
                         (start Sample.files) in
  code = 0%Z /\
  match subscript (heap st) Sample.root (release_tag_path ++ [options]) with
  | inr o => eq_list (heap st) o [lit "v2.0"; lit "v1.1"; lit "v1.0"] = true
  | inl _ => False
  end.
Proof. vm_compute. split; reflexivity. Qed.

Example sync_up_to_date :
  fst (run (sync_main RepoObject (Sample.surroundings Sample.two_tags) Sample.argv)
           (start Sample.files)) = 93%Z /\
  fst (run (sync_main ShellInvocation (Sample.surroundings Sample.two_tags) Sample.argv)
           (start Sample.files)) = 0%Z.
Proof. vm_compute. split; reflexivity. Qed.

Example universal_newlines_ex :
  universal_newlines (lit "a" ++ [13; 10] ++ lit "b" ++ [13] ++ lit "c" ++ [10])
  = lit "a" ++ [10] ++ lit "b" ++ [10] ++ lit "c" ++ [10].
Proof. reflexivity. Qed.

Example tags_of_listing :
  tags_of Sample.three_tags = [lit "v2.0"; lit "v1.1"; lit "v1.0"].
Proof. reflexivity. Qed.
